(** * RCNN target assignment (frcnn/rcnn_target.py)

    A shallow embedding of [RCNNTarget.proposal_target_layer] and the
    properties of its labelling, subsampling and unmapping phases. *)

From Stdlib Require Import ZArith QArith Qround Lia Permutation Sorted.
From stdpp Require Import base tactics option list.


(** ** Floating-point values

    The arrays of the source hold IEEE-754 numbers.  The function only ever
    compares them (with [>=], [>], [<], [<=]) or hands them to its numeric
    collaborators, and an IEEE comparison is exact: it is the comparison of
    the extended rationals the two operands denote, and it is false as soon
    as one operand is NaN.  A float is therefore modelled by the value it
    denotes. *)
Module Float.

Inductive float : Type :=
| NaN
| NegInf
| Fin (q : Q)
| PosInf.

Definition isnan (a : float) : bool :=
  match a with NaN => true | _ => false end.

Definition isfinite (a : float) : bool :=
  match a with Fin _ => true | _ => false end.

(** [a <= b] *)
Definition leb (a b : float) : bool :=
  match a, b with
  | NaN, _ | _, NaN => false
  | NegInf, _ => true
  | _, PosInf => true
  | Fin p, Fin q => Qle_bool p q
  | _, _ => false
  end.

(** [a < b] *)
Definition ltb (a b : float) : bool :=
  match a, b with
  | NaN, _ | _, NaN => false
  | PosInf, _ => false
  | _, NegInf => false
  | Fin p, Fin q => negb (Qle_bool q p)
  | _, _ => true
  end.

(** [a >= b] and [a > b] are the flipped comparisons, as in IEEE-754. *)
Definition geb (a b : float) : bool := leb b a.
Definition gtb (a b : float) : bool := ltb b a.

Definition of_Z (z : Z) : float := Fin (inject_Z z).

Definition zero : float := Fin 0.

End Float.

Export Float(float).

(** ** Exceptions

    A Python call either returns a value or raises.  The two exceptions
    numpy can raise in this function are kept apart. *)
Inductive exn : Type :=
| ValueError
| IndexError.

Inductive Result (A : Type) : Type :=
| Ok (a : A)
| Raise (e : exn).

Arguments Ok {A} a.
Arguments Raise {A} e.

(** ** The numpy operations the function uses

    One-dimensional arrays are lists; a two-dimensional float array carries
    its shape, since a reduction over an axis of length zero raises even when
    the array has no row. *)
Module np.

Record ndarray2 : Type := mk_ndarray2 {
  shape : nat * nat;
  rows : list (list float)
}.

(** [len(a)], an integer. *)
Definition len {A} (a : list A) : Z := Z.of_nat (length a).

(** [np.where(mask)[0]] and [np.nonzero(mask)[0]]: the positions at which
    the boolean array holds, in increasing order. *)
Fixpoint where_from (i : nat) (mask : list bool) : list nat :=
  match mask with
  | [] => []
  | b :: mask' =>
      if b then i :: where_from (S i) mask' else where_from (S i) mask'
  end.

Definition where_ (mask : list bool) : list nat := where_from 0 mask.

(** [np.sum(mask)]: how many entries of a boolean array hold. *)
Fixpoint sum (mask : list bool) : Z :=
  match mask with
  | [] => 0
  | b :: mask' => ((if b then 1 else 0) + sum mask')%Z
  end.

(** [a[idx]] for an array of indices: a fresh array of the selected
    entries; an index past the end raises [IndexError]. *)
Definition getitem {A} (a : list A) (idx : list nat) : Result (list A) :=
  match mapM (λ i, a !! i) idx with
  | Some xs => Ok xs
  | None => Raise IndexError
  end.

(** The right-hand side of an indexed assignment is broadcast to the shape
    of the index array: equal lengths, or a single value repeated. *)
Definition broadcast {A} (vals : list A) (n : nat) : Result (list A) :=
  if (length vals =? n)%nat then Ok vals
  else match vals with
       | [v] => Ok (replicate n v)
       | _ => Raise ValueError
       end.

(** The writes of [a[idx] = vals], performed in order (on a repeated index
    the last write stays). *)
Fixpoint put {A} (a : list A) (idx : list nat) (vals : list A) : list A :=
  match idx, vals with
  | i :: idx', v :: vals' => put (<[i:=v]> a) idx' vals'
  | _, _ => a
  end.

(** [a[idx] = vals] for an array of indices: every index is checked against
    the length first. *)
Definition setitem {A} (a : list A) (idx : list nat) (vals : list A)
  : Result (list A) :=
  if forallb (λ i, (i <? length a)%nat) idx then
    match broadcast vals (length idx) with
    | Ok vals' => Ok (put a idx vals')
    | Raise e => Raise e
    end
  else Raise IndexError.

(** [a[idx] = v] for a scalar [v]. *)
Definition setitem_scalar {A} (a : list A) (idx : list nat) (v : A)
  : Result (list A) :=
  setitem a idx [v].

(** [a[mask] = v] for a boolean mask of the length of [a]. *)
Fixpoint mask_fill {A} (a : list A) (mask : list bool) (v : A) : list A :=
  match a, mask with
  | x :: a', m :: mask' => (if m then v else x) :: mask_fill a' mask' v
  | _, _ => a
  end.

(** [a[mask] = b[mask]] for a boolean mask and [b] of the length of [a]:
    the entries of [b] under the mask go to the same positions of [a]. *)
Fixpoint mask_copy {A} (a : list A) (mask : list bool) (b : list A) : list A :=
  match a, mask, b with
  | x :: a', m :: mask', y :: b' =>
      (if m then y else x) :: mask_copy a' mask' b'
  | _, _, _ => a
  end.

(** [np.maximum] on two floats: a NaN operand is the result. *)
Definition maximum (a b : float) : float :=
  if Float.geb a b || Float.isnan a then a else b.

(** [maximum.reduce] over one row, started at its first entry. *)
Definition row_max (row : list float) : float :=
  match row with
  | [] => Float.NaN
  | x :: row' => fold_left maximum row' x
  end.

(** [m.max(axis=1)]: the maximum has no identity, so a zero-length axis
    raises [ValueError]. *)
Definition amax1 (m : ndarray2) : Result (list float) :=
  if (snd (shape m) =? 0)%nat then Raise ValueError
  else Ok (map row_max (rows m)).

(** The scan of numpy's [argmax] on floats: [mp] is the running maximum, at
    position [max_ind]; an entry replaces it when [entry <= mp] fails, and a
    NaN ends the scan. *)
Fixpoint argmax_from (mp : float) (max_ind i : nat) (ip : list float) : nat :=
  match ip with
  | [] => max_ind
  | x :: ip' =>
      if negb (Float.leb x mp) then
        if Float.isnan x then i else argmax_from x i (S i) ip'
      else argmax_from mp max_ind (S i) ip'
  end.

Definition row_argmax (row : list float) : nat :=
  match row with
  | [] => 0
  | mp :: ip => if Float.isnan mp then 0 else argmax_from mp 0 1 ip
  end.

(** [m.argmax(axis=1)]: raises on a zero-length axis as well. *)
Definition argmax1 (m : ndarray2) : Result (list nat) :=
  if (snd (shape m) =? 0)%nat then Raise ValueError
  else Ok (map row_argmax (rows m)).

(** Python's [int] on a finite float: truncation towards zero. *)
Definition int (q : Q) : Z :=
  if Qle_bool 0 q then Qfloor q else Qceiling q.

End np.

(** ** Data model *)

(** A box [(x1, y1, x2, y2)] in image coordinates. *)
Record Box : Type := mk_Box {
  x1 : float;
  y1 : float;
  x2 : float;
  y2 : float
}.

(** A row of [proposals]: [(batch, x1, y1, x2, y2)]. *)
Record Proposal : Type := mk_Proposal {
  batch : float;
  p_box : Box
}.

(** A row of [gt_boxes]: [(x1, y1, x2, y2, label)].  The label column holds
    integer class identifiers, which float arithmetic represents exactly;
    so the labels derived from it are modelled in [Z]. *)
Record GtBox : Type := mk_GtBox {
  g_box : Box;
  g_class : Z
}.

(** A regression target [(dx, dy, dw, dh)]. *)
Definition Target : Type := (float * float * float * float)%type.

Definition zero_target : Target :=
  (Float.zero, Float.zero, Float.zero, Float.zero).

(** The attributes of an [RCNNTarget] instance. *)
Record RCNNTarget : Type := mk_RCNNTarget {
  _num_classes : Z;
  _foreground_fraction : Q;
  _batch_size : Z;
  _foreground_threshold : Q;
  _background_threshold_high : Q;
  _background_threshold_low : Q
}.

(** The binary64 number the literal [0.1] denotes. *)
Definition double_0_1 : Q := 3602879701896397 # 36028797018963968.

(** [RCNNTarget.__init__]. *)
Definition __init__ (num_classes : Z) : RCNNTarget :=
  {| _num_classes := num_classes;
     _foreground_fraction := 1 # 4;
     _batch_size := 64;
     _foreground_threshold := 1 # 2;
     _background_threshold_high := 1 # 2;
     _background_threshold_low := double_0_1 |}.

(** ** Sample collaborators and inputs

    Concrete kernels and a concrete random source, on which the model can be
    run. *)
Module Sample.

(** A random source whose state counts the shuffles; a shuffle reverses the
    range. *)
Definition rng : Type := nat.

Definition seed (s : Z) : rng := Z.to_nat s.

Definition permutation (g : rng) (n : nat) : list nat * rng :=
  (rev (seq 0 n), S g).

Definition qmin (a b : Q) : Q := if Qle_bool a b then a else b.
Definition qmax (a b : Q) : Q := if Qle_bool a b then b else a.

(** Intersection over union of two pixel-inclusive boxes with finite
    corners. *)
Definition iou (b g : Box) : float :=
  match x1 b, y1 b, x2 b, y2 b, x1 g, y1 g, x2 g, y2 g with
  | Float.Fin bx1, Float.Fin by1, Float.Fin bx2, Float.Fin by2,
    Float.Fin gx1, Float.Fin gy1, Float.Fin gx2, Float.Fin gy2 =>
      let iw := (qmin bx2 gx2 - qmax bx1 gx1 + 1)%Q in
      let ih := (qmin by2 gy2 - qmax by1 gy1 + 1)%Q in
      if Qle_bool iw 0 || Qle_bool ih 0 then Float.Fin 0
      else
        let ua := ((bx2 - bx1 + 1) * (by2 - by1 + 1)
                   + (gx2 - gx1 + 1) * (gy2 - gy1 + 1) - iw * ih)%Q in
        Float.Fin (Qred (iw * ih / ua))
  | _, _, _, _, _, _, _, _ => Float.NaN
  end.

Definition fsub (a b : float) : float :=
  match a, b with
  | Float.Fin p, Float.Fin q => Float.Fin (Qred (p - q))
  | _, _ => Float.NaN
  end.

(** A stand-in encoder: the corner differences. *)
Definition encode (b g : Box) : Target :=
  (fsub (x1 g) (x1 b), fsub (y1 g) (y1 b),
   fsub (x2 g) (x2 b), fsub (y2 g) (y2 b)).

Definition box (a b c d : Z) : Box :=
  mk_Box (Float.of_Z a) (Float.of_Z b) (Float.of_Z c) (Float.of_Z d).

Definition proposal (a b c d : Z) : Proposal :=
  mk_Proposal (Float.of_Z 0) (box a b c d).

(** A 20 x 20 image with one object of class 3. *)
Definition im_shape : Z * Z := (20, 20)%Z.

Definition gt_boxes : list GtBox := [mk_GtBox (box 0 0 9 9) 3].

(** Overlaps 9/10, 3/10 and 1/2 with the object; the last box leaves the
    image. *)
Definition proposals : list Proposal :=
  [proposal 0 0 9 8; proposal 0 0 9 2; proposal 0 0 9 4; proposal 0 0 30 9].

(** A proposal whose first coordinate is NaN, before a regular one. *)
Definition nan_proposals : list Proposal :=
  [mk_Proposal (Float.of_Z 0)
     (mk_Box Float.NaN (Float.of_Z 0) (Float.of_Z 3) (Float.of_Z 3));
   proposal 0 0 9 8].

(** Twenty foreground and seventy background labels. *)
Definition crowded_labels : list Z := replicate 20 4%Z ++ replicate 70 0%Z.

End Sample.

(** Further sample inputs. *)
Module SampleMore.

(** An instance whose background range reaches above the foreground
    threshold: overlaps in [0.5, 0.7) fall under both masks. *)
Definition loose : RCNNTarget :=
  {| _num_classes := 20;
     _foreground_fraction := 1 # 4;
     _batch_size := 64;
     _foreground_threshold := 1 # 2;
     _background_threshold_high := 7 # 10;
     _background_threshold_low := double_0_1 |}.

(** A ground-truth box with a NaN corner: the sample kernel returns NaN on
    it. *)
Definition nan_gt_boxes : list GtBox :=
  [mk_GtBox (mk_Box Float.NaN (Float.of_Z 0) (Float.of_Z 9) (Float.of_Z 9)) 3].

(** Labels within the quotas of Step 4. *)
Definition small_labels : list Z := [4; 0; -1; 0; 2; -3]%Z.

End SampleMore.

(** ** The target assignment *)
Section RCNNTarget.

(** The process-wide random source of [np.random]: its state, the state
    [np.random.seed] installs, and [permutation(n)], which returns a
    shuffled [range(n)]. *)
Variable rng : Type.
Variable seed : Z → rng.
Variable permutation : rng → nat → list nat * rng.
Hypothesis permutation_range :
  ∀ g n, Permutation (permutation g n).1 (seq 0 n).

(** [im_shape], read from the enclosing scope: [(height, width)]. *)
Variable im_shape : Z * Z.

(** The numeric kernels behind [bbox_overlaps] and [bbox_transform], on one
    pair of boxes. *)
Variable iou : Box → Box → float.
Variable encode : Box → Box → Target.

(** What a call can change besides its result: the random source, and the
    warnings logged. *)
Record world : Type := mk_world {
  random_state : rng;
  warnings : list (Z * Z)
}.

Definition M (A : Type) : Type := world → Result A * world.

#[local] Instance M_ret : MRet M := λ A a w, (Ok a, w).

#[local] Instance M_bind : MBind M := λ A B f m w,
  match m w with
  | (Ok a, w') => f a w'
  | (Raise e, w') => (Raise e, w')
  end.

(** A computation that does not touch the world. *)
Definition lift {A} (r : Result A) : M A := λ w, (r, w).

(** [np.random.seed(s)] *)
Definition np_random_seed (s : Z) : M () :=
  λ w, (Ok (), {| random_state := seed s; warnings := warnings w |}).

(** [np.random.choice(a, size=size, replace=False)]: the first [size]
    entries of a shuffled index range select the sample; a negative size,
    a size above the population, and an empty population raise. *)
Definition np_random_choice {A} (a : list A) (size : Z) : M (list A) :=
  λ w,
    if (size <? 0)%Z || (np.len a <? size)%Z || (np.len a =? 0)%Z
    then (Raise ValueError, w)
    else
      let '(perm, g) := permutation (random_state w) (length a) in
      (np.getitem a (take (Z.to_nat size) perm),
       {| random_state := g; warnings := warnings w |}).

(** [tf.logging.warning] of the two counts. *)
Definition warning (have want : Z) : M () :=
  λ w, (Ok (), {| random_state := random_state w;
                  warnings := warnings w ++ [(have, want)] |}).

(** Modelled from the spec: a row of the result of [bbox_overlaps], the
    IoU of one box with every query box. *)
Definition overlap_row (b : Box) (query_boxes : list GtBox) : list float :=
  map (λ g, iou b (g_box g)) query_boxes.

(** Modelled from the spec: [bbox_overlaps] of [utils/bbox.py], which is not
    part of the sources.  The result has one row per box and one column per
    query box, entry [[i, j]] being the IoU of box [i] and query box [j]; it
    has this shape for empty inputs too. *)
Definition bbox_overlaps (boxes : list Box) (query_boxes : list GtBox)
  : np.ndarray2 :=
  {| np.shape := (length boxes, length query_boxes);
     np.rows := map (λ b, overlap_row b query_boxes) boxes |}.

(** Modelled from the spec: [bbox_transform] of [utils/bbox_transform.py],
    which is not part of the sources.  Row [i] of the result encodes source
    box [i] against target box [i]. *)
Definition bbox_transform (ex_rois : list Box) (gt_rois : list GtBox)
  : list Target :=
  zip_with (λ b g, encode b (g_box g)) ex_rois gt_rois.

(** Modelled from the spec: [unmap] of [utils/bbox_transform.py], which is
    not part of the sources.  [data[i]] is placed at row [inds[i]] of an
    array of [count] rows, and [fill] everywhere else. *)
Definition unmap {A} (data : list A) (count : nat) (inds : list nat)
    (fill : A) : list A :=
  np.put (replicate count fill) inds data.

(** The mask of lines 64-69: the proposals inside the image. *)
Definition inside (b : Box) : bool :=
  Float.geb (x1 b) (Float.of_Z 0)
  && Float.geb (y1 b) (Float.of_Z 0)
  && Float.ltb (x2 b) (Float.of_Z (snd im_shape))
  && Float.ltb (y2 b) (Float.of_Z (fst im_shape)).

(** Lines 59-72: the batch column is dropped and the proposals inside the
    image are kept, with their positions. *)
Definition inds_inside (proposals : list Proposal) : list nat :=
  np.where_ (map inside (map p_box proposals)).

(** The two masks of lines 96 and 99. *)
Definition is_background (self : RCNNTarget) (max_overlap : float) : bool :=
  Float.gtb max_overlap (Float.Fin (_background_threshold_low self))
  && Float.ltb max_overlap (Float.Fin (_background_threshold_high self)).

Definition is_foreground (self : RCNNTarget) (max_overlap : float) : bool :=
  Float.geb max_overlap (Float.Fin (_foreground_threshold self)).

(** Lines 86-105: the label of every kept proposal, from its overlaps with
    the ground-truth boxes. *)
Definition label_proposals (self : RCNNTarget) (proposals : list Box)
    (overlaps : np.ndarray2) (gt_boxes : list GtBox) : Result (list Z) :=
  let proposals_label := replicate (length proposals) (-1)%Z in
  match np.amax1 overlaps with
  | Raise e => Raise e
  | Ok max_overlaps =>
      let proposals_label :=
        np.mask_fill proposals_label
          (map (is_background self) max_overlaps) 0%Z in
      let overlaps_with_label := map (is_foreground self) max_overlaps in
      match np.argmax1 overlaps with
      | Raise e => Raise e
      | Ok overlaps_best_label =>
          match np.getitem (map g_class gt_boxes) overlaps_best_label with
          | Raise e => Raise e
          | Ok best_class =>
              Ok (np.mask_copy proposals_label overlaps_with_label
                    (map (λ c, c + 1)%Z best_class))
          end
      end
  end.

(** Line 112. *)
Definition num_fg (self : RCNNTarget) : Z :=
  np.int (_foreground_fraction self * inject_Z (_batch_size self)).

(** Line 113 and line 130: the candidates of the two draws. *)
Definition fg_inds (proposals_label : list Z) : list nat :=
  np.where_ (map (λ l, 1 <=? l)%Z proposals_label).

Definition bg_inds (proposals_label : list Z) : list nat :=
  np.where_ (map (λ l, l =? 0)%Z proposals_label).

(** Line 129. *)
Definition num_bg (self : RCNNTarget) (proposals_label : list Z) : Z :=
  (_batch_size self - np.sum (map (λ l, 1 <=? l)%Z proposals_label))%Z.

(** Lines 113-120: foreground proposals in excess are disabled by negating
    their label. *)
Definition subsample_fg (self : RCNNTarget) (proposals_label : list Z)
  : M (list Z) :=
  let fg_inds := fg_inds proposals_label in
  if (num_fg self <? np.len fg_inds)%Z then
    disable_inds ← np_random_choice fg_inds (np.len fg_inds - num_fg self)%Z;
    negated ← lift (np.getitem proposals_label disable_inds);
    lift (np.setitem proposals_label disable_inds (map Z.opp negated))
  else mret proposals_label.

(** Lines 129-135: background proposals in excess are set to ignore. *)
Definition subsample_bg (self : RCNNTarget) (proposals_label : list Z)
  : M (list Z) :=
  let num_bg := num_bg self proposals_label in
  let bg_inds := bg_inds proposals_label in
  if (num_bg <? np.len bg_inds)%Z then
    disable_inds ← np_random_choice bg_inds (np.len bg_inds - num_bg)%Z;
    lift (np.setitem_scalar proposals_label disable_inds (-1)%Z)
  else mret proposals_label.

(** Lines 112-135. *)
Definition subsample (self : RCNNTarget) (proposals_label : list Z)
  : M (list Z) :=
  let n_fg := np.len (fg_inds proposals_label) in
  sampled ← subsample_fg self proposals_label;
  (if (n_fg <? num_fg self)%Z then warning n_fg (num_fg self) else mret ());;
  subsample_bg self sampled.

(** Lines 145-172: the regression targets of the proposals with a positive
    label, unmapped to the kept proposals and then to all proposals. *)
Definition bbox_targets (all_proposals proposals : list Box)
    (inds_inside : list nat) (overlaps : np.ndarray2)
    (gt_boxes : list GtBox) (proposals_label : list Z)
  : Result (list Target) :=
  let proposal_with_target_idx :=
    np.where_ (map (λ l, 0 <? l)%Z proposals_label) in
  match np.argmax1 overlaps with
  | Raise e => Raise e
  | Ok top_gt_idx =>
      match np.getitem top_gt_idx proposal_with_target_idx with
      | Raise e => Raise e
      | Ok gt_boxes_ids =>
          match np.getitem gt_boxes gt_boxes_ids with
          | Raise e => Raise e
          | Ok proposals_gt_boxes =>
              match np.getitem proposals proposal_with_target_idx with
              | Raise e => Raise e
              | Ok proposals_with_target =>
                  let bbox_targets :=
                    bbox_transform proposals_with_target proposals_gt_boxes in
                  let bbox_targets :=
                    unmap bbox_targets (length proposals_label)
                      proposal_with_target_idx zero_target in
                  Ok (unmap bbox_targets (length all_proposals)
                        inds_inside zero_target)
              end
          end
      end
  end.

(** [RCNNTarget.proposal_target_layer] *)
Definition proposal_target_layer (self : RCNNTarget)
    (proposals : list Proposal) (gt_boxes : list GtBox)
  : M (list Z * list Target) :=
  np_random_seed 0;;
  let all_proposals := map p_box proposals in
  let inds_inside := inds_inside proposals in
  proposals ← lift (np.getitem all_proposals inds_inside);
  let overlaps := bbox_overlaps proposals gt_boxes in
  proposals_label ← lift (label_proposals self proposals overlaps gt_boxes);
  proposals_label ← subsample self proposals_label;
  bbox_targets ← lift (bbox_targets all_proposals proposals inds_inside
                         overlaps gt_boxes proposals_label);
  let proposals_label :=
    unmap proposals_label (length all_proposals) inds_inside (-1)%Z in
  mret (proposals_label, bbox_targets).

(** ** Vocabulary of the statements *)

(** Entry [p] of [max_overlaps] and of [overlaps.argmax(axis=1)], for the
    kept proposal with box [b]. *)
Definition max_overlap (b : Box) (gt_boxes : list GtBox) : float :=
  np.row_max (overlap_row b gt_boxes).

Definition best_gt (b : Box) (gt_boxes : list GtBox) : nat :=
  np.row_argmax (overlap_row b gt_boxes).

(** [best] is the first position of a maximum of [row]: no earlier entry
    is NaN or reaches the entry at [best], which is itself NaN or at least
    every entry. *)
Definition first_argmax (row : list float) (best : nat) : Prop :=
  ∃ m, row !! best = Some m
    ∧ (∀ j x, (j < best)%nat → row !! j = Some x →
         Float.isnan x = false ∧ Float.leb m x = false)
    ∧ (Float.isnan m = false → ∀ x, x ∈ row → Float.leb x m = true).

(** A computation whose result and final random state depend on the
    world through the random state only. *)
Definition rng_only {A} (m : M A) : Prop :=
  ∀ w1 w2, random_state w1 = random_state w2 →
    (m w1).1 = (m w2).1 ∧ random_state (m w1).2 = random_state (m w2).2.

(** A box with a NaN among its coordinates, and a box all of whose
    coordinates are finite. *)
Definition has_nan (b : Box) : bool :=
  Float.isnan (x1 b) || Float.isnan (y1 b)
  || Float.isnan (x2 b) || Float.isnan (y2 b).

Definition finite_box (b : Box) : bool :=
  Float.isfinite (x1 b) && Float.isfinite (y1 b)
  && Float.isfinite (x2 b) && Float.isfinite (y2 b).

(** An input with a non-finite coordinate. *)
Definition non_finite_input (proposals : list Proposal)
    (gt_boxes : list GtBox) : bool :=
  negb (forallb (λ p, finite_box (p_box p)) proposals
        && forallb (λ g, finite_box (g_box g)) gt_boxes).

(** The result of a call is a pair of [n] labels and [n] targets. *)
Definition has_output_lengths (n : nat)
    (r : Result (list Z * list Target)) : bool :=
  match r with
  | Ok (labels, targets) =>
      (length labels =? n)%nat && (length targets =? n)%nat
  | Raise _ => false
  end.

(** ** Facts about the comparisons *)

Lemma float_leb_nan_l b : Float.leb Float.NaN b = false.
Proof. reflexivity. Qed.

Lemma float_leb_nan_r a : Float.leb a Float.NaN = false.
Proof. by destruct a. Qed.

Lemma float_ltb_nan_l b : Float.ltb Float.NaN b = false.
Proof. reflexivity. Qed.

Lemma float_ltb_nan_r a : Float.ltb a Float.NaN = false.
Proof. by destruct a. Qed.

Lemma float_leb_refl a : Float.isnan a = false → Float.leb a a = true.
Proof.
  destruct a; simpl; try done.
  intros _. apply Qle_bool_iff, Qle_refl.
Qed.

Lemma float_leb_trans a b c :
  Float.leb a b = true → Float.leb b c = true → Float.leb a c = true.
Proof.
  destruct a, b, c; simpl; try done.
  rewrite !Qle_bool_iff. apply Qle_trans.
Qed.

Lemma float_ltb_leb a b : Float.ltb a b = true → Float.leb a b = true.
Proof.
  destruct a, b; simpl; try done.
  rewrite negb_true_iff, Qle_bool_iff.
  intros Hq. apply Qlt_le_weak, Qnot_le_lt.
  intros Hle. apply Qle_bool_iff in Hle. congruence.
Qed.

Lemma float_ltb_not_leb a b : Float.ltb a b = true → Float.leb b a = false.
Proof.
  destruct a, b; simpl; try done.
  by rewrite negb_true_iff.
Qed.

(** Without Float.NaN the order is total. *)
Lemma float_leb_total a b :
  Float.isnan a = false → Float.isnan b = false → Float.leb a b = false → Float.ltb b a = true.
Proof.
  destruct a, b; simpl; try done.
  intros _ _ ->. done.
Qed.

Lemma float_ltb_leb_trans a b c :
  Float.ltb a b = true → Float.leb b c = true → Float.ltb a c = true.
Proof.
  destruct a, b, c; simpl; try done.
  rewrite !negb_true_iff, !Qle_bool_iff. intros Hlt Hle.
  apply not_true_is_false. intros Hca. apply Qle_bool_iff in Hca.
  assert (Qle_bool q0 q = true) as Hc; [|congruence].
  apply Qle_bool_iff. by eapply Qle_trans.
Qed.

Lemma float_leb_ltb_trans a b c :
  Float.leb a b = true → Float.ltb b c = true → Float.ltb a c = true.
Proof.
  destruct a, b, c; simpl; try done.
  rewrite !negb_true_iff, !Qle_bool_iff. intros Hle Hlt.
  apply not_true_is_false. intros Hca. apply Qle_bool_iff in Hca.
  assert (Qle_bool q1 q0 = true) as Hc; [|congruence].
  apply Qle_bool_iff. by eapply Qle_trans.
Qed.

Lemma float_leb_not_nan a b : Float.leb a b = true → Float.isnan a = false.
Proof. by destruct a, b. Qed.

(** ** Facts about the numpy operations *)

Lemma where_from_elem_of (mask : list bool) (k i : nat) :
  i ∈ np.where_from k mask ↔ (k ≤ i)%nat ∧ mask !! (i - k)%nat = Some true.
Proof.
  revert k. induction mask as [|b mask IH]; intros k; simpl.
  - rewrite elem_of_nil. split; [done|]. by intros [_ ?].
  - assert (i ∈ np.where_from (S k) mask ↔
            (k < i)%nat ∧ (b :: mask) !! (i - k)%nat = Some true) as Htl.
    { rewrite IH. split.
      - intros [Hle Hi]. split; [lia|].
        replace (i - k)%nat with (S (i - S k)) by lia. done.
      - intros [Hlt Hi]. split; [lia|].
        replace (i - k)%nat with (S (i - S k)) in Hi by lia. done. }
    destruct b.
    + rewrite elem_of_cons, Htl. split.
      * intros [->|[Hlt Hi]]; [|split; [lia|done]].
        split; [lia|]. by rewrite Nat.sub_diag.
      * intros [Hle Hi]. destruct (decide (i = k)) as [|Hne]; [by left|].
        right. split; [lia|done].
    + rewrite Htl. split.
      * intros [Hlt Hi]. split; [lia|done].
      * intros [Hle Hi]. split; [|done].
        destruct (decide (i = k)) as [->|]; [|lia].
        by rewrite Nat.sub_diag in Hi.
Qed.

Lemma where_elem_of (mask : list bool) (i : nat) :
  i ∈ np.where_ mask ↔ mask !! i = Some true.
Proof.
  unfold np.where_. rewrite where_from_elem_of, Nat.sub_0_r.
  split; [by intros [_ ?]|]. split; [lia|done].
Qed.

Lemma where_from_lb (mask : list bool) (k : nat) :
  Forall (λ i, k ≤ i)%nat (np.where_from k mask).
Proof.
  apply Forall_forall. intros i Hi.
  apply where_from_elem_of in Hi. lia.
Qed.

Lemma where_from_NoDup (mask : list bool) (k : nat) :
  NoDup (np.where_from k mask).
Proof.
  revert k. induction mask as [|b mask IH]; intros k; simpl.
  - constructor.
  - destruct b; [|done]. constructor; [|done].
    intros Hk. apply where_from_elem_of in Hk. lia.
Qed.

Lemma where_NoDup (mask : list bool) : NoDup (np.where_ mask).
Proof. apply where_from_NoDup. Qed.

(** The positions come out in increasing order. *)
Lemma where_from_sorted (mask : list bool) (k : nat) :
  StronglySorted lt (np.where_from k mask).
Proof.
  revert k. induction mask as [|b mask IH]; intros k; simpl.
  - constructor.
  - destruct b; [|done]. constructor; [done|].
    eapply Forall_impl; [apply where_from_lb|]. simpl. intros; lia.
Qed.

Lemma where_bound (mask : list bool) (i : nat) :
  i ∈ np.where_ mask → (i < length mask)%nat.
Proof.
  rewrite where_elem_of. intros Hi. by eapply lookup_lt_Some.
Qed.

Lemma sum_where_from (mask : list bool) (k : nat) :
  np.sum mask = np.len (np.where_from k mask).
Proof.
  unfold np.len. revert k.
  induction mask as [|b mask IH]; intros k; simpl; [done|].
  rewrite (IH (S k)). destruct b; simpl length; lia.
Qed.

(** [np.sum(mask)] counts what [np.where(mask)] lists. *)
Lemma sum_where (mask : list bool) : np.sum mask = np.len (np.where_ mask).
Proof. apply sum_where_from. Qed.

Lemma sum_nonneg (mask : list bool) : (0 ≤ np.sum mask)%Z.
Proof. rewrite sum_where. unfold np.len. lia. Qed.

Lemma sum_le_length (mask : list bool) : (np.sum mask ≤ np.len mask)%Z.
Proof.
  unfold np.len. induction mask as [|b mask IH]; simpl; [done|].
  destruct b; simpl length; lia.
Qed.

Lemma getitem_Ok {A} (a : list A) (idx : list nat) (xs : list A) :
  np.getitem a idx = Ok xs ↔ Forall2 (λ i x, a !! i = Some x) idx xs.
Proof.
  unfold np.getitem. rewrite <- mapM_Some.
  destruct (mapM _ idx); split; intros H; by inversion H.
Qed.

Lemma getitem_in_range {A} (a : list A) (idx : list nat) :
  Forall (λ i, i < length a)%nat idx → ∃ xs, np.getitem a idx = Ok xs.
Proof.
  intros Hidx. unfold np.getitem.
  destruct (mapM (λ i, a !! i) idx) as [xs|] eqn:Hm; [by exists xs|].
  assert (is_Some (mapM (λ i, a !! i) idx)) as [xs Hxs]; [|congruence].
  apply mapM_is_Some. eapply Forall_impl; [exact Hidx|].
  intros i Hi. by apply lookup_lt_is_Some.
Qed.

Lemma getitem_length {A} (a : list A) (idx : list nat) (xs : list A) :
  np.getitem a idx = Ok xs → length xs = length idx.
Proof. rewrite getitem_Ok. intros H. symmetry. by eapply Forall2_length. Qed.

Lemma getitem_lookup {A} (a : list A) (idx : list nat) (xs : list A)
    (k i : nat) :
  np.getitem a idx = Ok xs → idx !! k = Some i → xs !! k = a !! i.
Proof.
  rewrite getitem_Ok. intros H Hk.
  destruct (Forall2_lookup_l _ _ _ _ _ H Hk) as (x & Hx & Hai). congruence.
Qed.

Lemma getitem_elem_of {A} (a : list A) (idx : list nat) (xs : list A)
    (x : A) :
  np.getitem a idx = Ok xs → x ∈ xs → ∃ i, i ∈ idx ∧ a !! i = Some x.
Proof.
  rewrite getitem_Ok. intros H Hx.
  apply list_elem_of_lookup in Hx as [k Hk].
  destruct (Forall2_lookup_r _ _ _ _ _ H Hk) as (i & Hi & Hai).
  exists i. split; [|done]. apply list_elem_of_lookup. eauto.
Qed.

(** Distinct positions of an array without repetition select distinct
    entries. *)
Lemma getitem_NoDup {A} (a : list A) (idx : list nat) (xs : list A) :
  NoDup a → NoDup idx → np.getitem a idx = Ok xs → NoDup xs.
Proof.
  intros Ha Hidx. rewrite getitem_Ok. intros H.
  induction H as [|i x idx xs Hi H IH]; [constructor|].
  apply NoDup_cons in Hidx as [Hni Hidx]. constructor; [|by apply IH].
  intros Hx. apply list_elem_of_lookup in Hx as [k Hk].
  destruct (Forall2_lookup_r _ _ _ _ _ H Hk) as (j & Hj & Haj).
  assert (i = j) as -> by exact (NoDup_lookup a i j x Ha Hi Haj).
  apply Hni. apply list_elem_of_lookup. eauto.
Qed.

Lemma put_length {A} (a : list A) (idx : list nat) (vals : list A) :
  length (np.put a idx vals) = length a.
Proof.
  revert a vals. induction idx as [|i idx IH]; intros a vals; [done|].
  destruct vals as [|v vals]; [done|]. simpl.
  by rewrite IH, length_insert.
Qed.

(** A position that is not written keeps its entry. *)
Lemma put_lookup_notin {A} (a : list A) (idx : list nat) (vals : list A)
    (j : nat) :
  j ∉ idx → np.put a idx vals !! j = a !! j.
Proof.
  revert a vals. induction idx as [|i idx IH]; intros a vals Hj; [done|].
  destruct vals as [|v vals]; [done|]. simpl.
  apply not_elem_of_cons in Hj as [Hne Hj].
  rewrite IH by done. by apply list_lookup_insert_ne.
Qed.

(** A position written once holds the value written there. *)
Lemma put_lookup_in {A} (a : list A) (idx : list nat) (vals : list A)
    (k i : nat) :
  NoDup idx → (i < length a)%nat → idx !! k = Some i →
  (k < length vals)%nat → np.put a idx vals !! i = vals !! k.
Proof.
  revert a vals k.
  induction idx as [|i' idx IH]; intros a vals k Hnd Hi Hk Hkv; [done|].
  apply NoDup_cons in Hnd as [Hni Hnd].
  destruct vals as [|v vals]; [simpl in Hkv; lia|]. simpl.
  destruct k as [|k]; simpl in *.
  - simplify_eq. rewrite put_lookup_notin by done.
    by apply list_lookup_insert_eq.
  - apply IH; [done| |done|lia]. by rewrite length_insert.
Qed.

Lemma sum_map_insert {A} (P : A → bool) (a : list A) (i : nat) (x v : A) :
  a !! i = Some x →
  np.sum (map P (<[i:=v]> a))
  = (np.sum (map P a) - (if P x then 1 else 0) + (if P v then 1 else 0))%Z.
Proof.
  revert i. induction a as [|y a IH]; intros i Hi; [done|].
  destruct i as [|i]; simpl in *.
  - simplify_eq. lia.
  - rewrite (IH _ Hi). lia.
Qed.

(** Writing entries that fail [P] over distinct positions that all satisfy
    [P] (or all fail it) changes the count of [P] by their number. *)
Lemma sum_map_put {A} (P : A → bool) (b : bool) (a : list A)
    (idx : list nat) (vals : list A) :
  NoDup idx → length vals = length idx →
  Forall (λ i, ∃ x, a !! i = Some x ∧ P x = b) idx →
  Forall (λ v, P v = false) vals →
  np.sum (map P (np.put a idx vals))
  = (np.sum (map P a) - (if b then np.len idx else 0))%Z.
Proof.
  unfold np.len. revert a vals.
  induction idx as [|i idx IH]; intros a vals Hnd Hlen Hidx Hvals.
  - simpl. destruct b; lia.
  - destruct vals as [|v vals]; [done|]. simpl in Hlen.
    apply NoDup_cons in Hnd as [Hni Hnd].
    apply Forall_cons in Hidx as [(x & Hx & HPx) Hidx].
    apply Forall_cons in Hvals as [HPv Hvals].
    cbn [np.put]. rewrite IH; [|done|lia| |done].
    + rewrite (sum_map_insert P a i x v Hx), HPx, HPv.
      destruct b; simpl length; lia.
    + apply Forall_forall. intros j Hj.
      rewrite Forall_forall in Hidx.
      destruct (Hidx j Hj) as (y & Hy & HPy). exists y. split; [|done].
      rewrite list_lookup_insert_ne; [done|]. intros ->. done.
Qed.

Lemma broadcast_same {A} (vals : list A) :
  np.broadcast vals (length vals) = Ok vals.
Proof. unfold np.broadcast. by rewrite Nat.eqb_refl. Qed.

Lemma broadcast_scalar {A} (v : A) (n : nat) :
  np.broadcast [v] n = Ok (replicate n v).
Proof.
  unfold np.broadcast. destruct (_ =? _)%nat eqn:Hn; [|done].
  apply Nat.eqb_eq in Hn. by subst n.
Qed.

Lemma setitem_in_range {A} (a : list A) (idx : list nat) (vals : list A) :
  Forall (λ i, i < length a)%nat idx → length vals = length idx →
  np.setitem a idx vals = Ok (np.put a idx vals).
Proof.
  intros Hidx Hlen. unfold np.setitem.
  rewrite (proj2 (forallb_forall _ idx)).
  - by rewrite <- Hlen, broadcast_same.
  - intros i Hi. apply Nat.ltb_lt.
    rewrite Forall_forall in Hidx. apply Hidx. by apply list_elem_of_In.
Qed.

Lemma setitem_scalar_in_range {A} (a : list A) (idx : list nat) (v : A) :
  Forall (λ i, i < length a)%nat idx →
  np.setitem_scalar a idx v = Ok (np.put a idx (replicate (length idx) v)).
Proof.
  intros Hidx. unfold np.setitem_scalar, np.setitem.
  rewrite (proj2 (forallb_forall _ idx)).
  - by rewrite broadcast_scalar.
  - intros i Hi. apply Nat.ltb_lt.
    rewrite Forall_forall in Hidx. apply Hidx. by apply list_elem_of_In.
Qed.

Lemma mask_fill_length {A} (a : list A) (mask : list bool) (v : A) :
  length (np.mask_fill a mask v) = length a.
Proof.
  revert mask. induction a as [|x a IH]; intros [|m mask]; simpl; try done.
  by rewrite IH.
Qed.

Lemma mask_fill_lookup {A} (a : list A) (mask : list bool) (v : A)
    (i : nat) (x : A) (m : bool) :
  a !! i = Some x → mask !! i = Some m →
  np.mask_fill a mask v !! i = Some (if m then v else x).
Proof.
  revert mask i. induction a as [|y a IH]; intros [|m' mask] i; try done.
  destruct i as [|i]; simpl; [by intros [= ->] [= ->]|]. apply IH.
Qed.

Lemma mask_copy_length {A} (a : list A) (mask : list bool) (b : list A) :
  length (np.mask_copy a mask b) = length a.
Proof.
  revert mask b.
  induction a as [|x a IH]; intros [|m mask] [|y b]; simpl; try done.
  by rewrite IH.
Qed.

Lemma mask_copy_lookup {A} (a : list A) (mask : list bool) (b : list A)
    (i : nat) (x y : A) (m : bool) :
  a !! i = Some x → mask !! i = Some m → b !! i = Some y →
  np.mask_copy a mask b !! i = Some (if m then y else x).
Proof.
  revert mask b i.
  induction a as [|z a IH]; intros [|m' mask] [|y' b] i; try done.
  destruct i as [|i]; simpl; [by intros [= ->] [= ->] [= ->]|]. apply IH.
Qed.

Lemma maximum_nan_l (b : float) : np.maximum Float.NaN b = Float.NaN.
Proof. unfold np.maximum, Float.geb. by rewrite float_leb_nan_r. Qed.

Lemma fold_maximum_nan (row : list float) :
  fold_left np.maximum row Float.NaN = Float.NaN.
Proof. induction row as [|x row IH]; [done|]. simpl. by rewrite maximum_nan_l. Qed.

Lemma isnan_true (a : float) : Float.isnan a = true → a = Float.NaN.
Proof. by destruct a. Qed.

(** The invariant of the scan: [mp], at [max_ind], is the first maximum of
    the entries already seen, none of which is NaN. *)
Lemma argmax_from_spec (ip pre : list float) (mp : float) (max_ind : nat) :
  Float.isnan mp = false →
  pre !! max_ind = Some mp →
  (∀ x, x ∈ pre → Float.leb x mp = true) →
  (∀ j x, (j < max_ind)%nat → pre !! j = Some x → Float.leb mp x = false) →
  first_argmax (pre ++ ip) (np.argmax_from mp max_ind (length pre) ip)
  ∧ (pre ++ ip) !! np.argmax_from mp max_ind (length pre) ip
    = Some (fold_left np.maximum ip mp).
Proof.
  revert pre mp max_ind.
  induction ip as [|x ip IH]; intros pre mp max_ind Hmp Hat Hall Hfirst.
  - simpl. rewrite app_nil_r. split; [|done].
    exists mp. split; [done|]. split; [|by intros _].
    intros j y Hj Hy. split; [|by eapply Hfirst].
    eapply float_leb_not_nan, Hall, list_elem_of_lookup_2, Hy.
  - cbn [np.argmax_from fold_left].
    assert (length (pre ++ [x]) = S (length pre)) as Hlen.
    { rewrite length_app. simpl. lia. }
    unfold np.maximum, Float.geb. rewrite Hmp, orb_false_r.
    destruct (Float.leb x mp) eqn:Hx; simpl.
    + rewrite cons_middle, app_assoc, <- Hlen. apply IH; [done| | |].
      * apply lookup_app_l_Some, Hat.
      * intros y Hy. apply elem_of_app in Hy as [Hy|Hy]; [by apply Hall|].
        apply list_elem_of_singleton in Hy. by subst.
      * intros j y Hj Hy. apply (Hfirst j y Hj).
        rewrite lookup_app_l in Hy; [done|].
        apply lookup_lt_Some in Hat. lia.
    + destruct (Float.isnan x) eqn:Hnan.
      * apply isnan_true in Hnan. subst x. rewrite fold_maximum_nan.
        assert ((pre ++ Float.NaN :: ip) !! length pre = Some Float.NaN)
          as Hmid by apply list_lookup_middle, eq_refl.
        split; [|done]. exists Float.NaN. split; [done|].
        split; [|done]. intros j y Hj Hy.
        rewrite lookup_app_l in Hy by done. split; [|done].
        eapply float_leb_not_nan, Hall, list_elem_of_lookup_2, Hy.
      * pose proof (float_leb_total x mp Hnan Hmp Hx) as Hlt.
        rewrite cons_middle, app_assoc, <- Hlen. apply IH; [done| | |].
        -- rewrite lookup_app_r by done. by rewrite Nat.sub_diag.
        -- intros y Hy. apply elem_of_app in Hy as [Hy|Hy].
           ++ apply float_ltb_leb.
              eapply float_leb_ltb_trans; [by apply Hall|done].
           ++ apply list_elem_of_singleton in Hy. subst.
              by apply float_leb_refl.
        -- intros j y Hj Hy. rewrite lookup_app_l in Hy by done.
           apply float_ltb_not_leb.
           eapply float_leb_ltb_trans; [|done].
           eapply Hall, list_elem_of_lookup_2, Hy.
Qed.

(** [argmax] returns the first position of a maximum, and the entry there
    is what [max] returns. *)
Lemma row_argmax_spec (row : list float) :
  row ≠ [] →
  first_argmax row (np.row_argmax row)
  ∧ row !! np.row_argmax row = Some (np.row_max row).
Proof.
  destruct row as [|mp ip]; [done|]. intros _. simpl.
  destruct (Float.isnan mp) eqn:Hnan.
  - apply isnan_true in Hnan. subst mp. rewrite fold_maximum_nan.
    split; [|done]. exists Float.NaN. split; [done|].
    split; [|done]. intros j y Hj. lia.
  - apply (argmax_from_spec ip [mp] mp 0 Hnan eq_refl).
    + intros y Hy. apply list_elem_of_singleton in Hy. subst.
      by apply float_leb_refl.
    + intros j y Hj. lia.
Qed.

(** On a tie the first position wins, and a NaN wins over everything. *)
Example row_argmax_tie :
  np.row_argmax [Float.Fin (3 # 10); Float.Fin (9 # 10); Float.Fin (9 # 10)]
  = 1%nat.
Proof. reflexivity. Qed.

Example row_argmax_nan :
  np.row_argmax [Float.Fin (3 # 10); Float.NaN; Float.Fin (9 # 10)] = 1%nat
  ∧ np.row_max [Float.Fin (3 # 10); Float.NaN; Float.Fin (9 # 10)]
    = Float.NaN.
Proof. by split. Qed.

Lemma row_argmax_bound (row : list float) :
  row ≠ [] → (np.row_argmax row < length row)%nat.
Proof.
  intros Hrow. destruct (row_argmax_spec row Hrow) as [_ Hat].
  by eapply lookup_lt_Some.
Qed.

Lemma overlap_row_length (b : Box) (gt_boxes : list GtBox) :
  length (overlap_row b gt_boxes) = length gt_boxes.
Proof. apply length_map. Qed.

Lemma overlap_row_nonempty (b : Box) (gt_boxes : list GtBox) :
  gt_boxes ≠ [] → overlap_row b gt_boxes ≠ [].
Proof. by destruct gt_boxes. Qed.

Lemma best_gt_bound (b : Box) (gt_boxes : list GtBox) :
  gt_boxes ≠ [] → (best_gt b gt_boxes < length gt_boxes)%nat.
Proof.
  intros Hgt. rewrite <- (overlap_row_length b).
  by apply row_argmax_bound, overlap_row_nonempty.
Qed.

(** With at least one ground-truth box both reductions return. *)
Lemma amax1_overlaps (boxes : list Box) (gt_boxes : list GtBox) :
  gt_boxes ≠ [] →
  np.amax1 (bbox_overlaps boxes gt_boxes)
  = Ok (map (λ b, max_overlap b gt_boxes) boxes).
Proof.
  intros Hgt. unfold np.amax1, bbox_overlaps. simpl.
  destruct gt_boxes; [done|]. simpl. by rewrite map_map.
Qed.

Lemma argmax1_overlaps (boxes : list Box) (gt_boxes : list GtBox) :
  gt_boxes ≠ [] →
  np.argmax1 (bbox_overlaps boxes gt_boxes)
  = Ok (map (λ b, best_gt b gt_boxes) boxes).
Proof.
  intros Hgt. unfold np.argmax1, bbox_overlaps. simpl.
  destruct gt_boxes; [done|]. simpl. by rewrite map_map.
Qed.

(** Without ground-truth boxes the reduction over the empty axis raises. *)
Lemma amax1_no_gt (boxes : list Box) :
  np.amax1 (bbox_overlaps boxes []) = Raise ValueError.
Proof. reflexivity. Qed.

Lemma lookup_map {A B} (f : A → B) (l : list A) (i : nat) :
  map f l !! i = f <$> l !! i.
Proof. apply (list_lookup_fmap f l i). Qed.

Lemma lookup_map_Some {A B} (f : A → B) (l : list A) (i : nat) (x : A) :
  l !! i = Some x → map f l !! i = Some (f x).
Proof. intros H. by rewrite lookup_map, H. Qed.

(** ** Label assignment (lines 86-105) *)

(** With at least one ground-truth box the labelling returns, and the label
    of each kept proposal is decided by its maximal overlap: foreground
    first, then background, else ignore. *)
Lemma label_proposals_run (self : RCNNTarget) (proposals : list Box)
    (gt_boxes : list GtBox) :
  gt_boxes ≠ [] →
  ∃ labels,
    label_proposals self proposals (bbox_overlaps proposals gt_boxes) gt_boxes
    = Ok labels
    ∧ length labels = length proposals
    ∧ ∀ p b, proposals !! p = Some b →
        ∃ g, gt_boxes !! best_gt b gt_boxes = Some g
          ∧ labels !! p = Some
              (if is_foreground self (max_overlap b gt_boxes)
               then (g_class g + 1)%Z
               else if is_background self (max_overlap b gt_boxes)
                    then 0%Z else (-1)%Z).
Proof.
  intros Hgt. unfold label_proposals.
  rewrite (amax1_overlaps _ _ Hgt), (argmax1_overlaps _ _ Hgt).
  destruct (getitem_in_range (map g_class gt_boxes)
              (map (λ b, best_gt b gt_boxes) proposals))
    as [best_class Hbest].
  { apply Forall_forall. intros i Hi.
    apply list_elem_of_In, in_map_iff in Hi as (b & <- & _).
    rewrite length_map. by apply best_gt_bound. }
  rewrite Hbest. eexists. split; [done|]. split.
  { by rewrite mask_copy_length, mask_fill_length, length_replicate. }
  intros p b Hp.
  destruct (lookup_lt_is_Some_2 gt_boxes (best_gt b gt_boxes)) as [g Hg];
    [by apply best_gt_bound|].
  exists g. split; [done|].
  assert (best_class !! p = Some (g_class g)) as Hc.
  { rewrite (getitem_lookup _ _ _ p (best_gt b gt_boxes) Hbest).
    - by apply lookup_map_Some.
    - by apply (lookup_map_Some (λ b, best_gt b gt_boxes)). }
  erewrite mask_copy_lookup; [| |by do 2 apply lookup_map_Some; exact Hp
                             |by apply lookup_map_Some; exact Hc].
  2:{ eapply mask_fill_lookup.
      - apply lookup_replicate_2. by eapply lookup_lt_Some.
      - by do 2 apply lookup_map_Some; exact Hp. }
  done.
Qed.

(** With 0-based class identifiers the labels of Step 3 are ignore (-1),
    background (0) or a foreground label (at least 1). *)
Lemma label_proposals_range (self : RCNNTarget) (proposals : list Box)
    (gt_boxes : list GtBox) (labels : list Z) :
  gt_boxes ≠ [] →
  Forall (λ g, 0 ≤ g_class g)%Z gt_boxes →
  label_proposals self proposals (bbox_overlaps proposals gt_boxes) gt_boxes
  = Ok labels →
  Forall (λ l, -1 ≤ l)%Z labels.
Proof.
  intros Hgt Hclass Hrun.
  destruct (label_proposals_run self proposals gt_boxes Hgt)
    as (labels' & Hrun' & Hlen & Hlabel).
  assert (labels' = labels) as -> by congruence.
  apply Forall_forall. intros l Hl.
  apply list_elem_of_lookup in Hl as [p Hp].
  destruct (lookup_lt_is_Some_2 proposals p) as [b Hb].
  { rewrite <- Hlen. by eapply lookup_lt_Some. }
  destruct (Hlabel p b Hb) as (g & Hg & Hl).
  assert (0 ≤ g_class g)%Z as Hc.
  { rewrite Forall_forall in Hclass.
    by eapply Hclass, list_elem_of_lookup_2. }
  rewrite Hp in Hl. injection Hl as ->.
  destruct (is_foreground _ _); [lia|]. destruct (is_background _ _); lia.
Qed.

(** ** Sampling without replacement *)

(** A draw of at most the population, from a non-empty population without
    repetition, returns: the requested number of distinct members.  Only the
    random source changes. *)
Lemma np_random_choice_run {A} (a : list A) (size : Z) (w : world) :
  (0 ≤ size ≤ np.len a)%Z → (0 < np.len a)%Z → NoDup a →
  ∃ sample w',
    np_random_choice a size w = (Ok sample, w')
    ∧ NoDup sample
    ∧ (∀ x, x ∈ sample → x ∈ a)
    ∧ np.len sample = size
    ∧ warnings w' = warnings w.
Proof.
  unfold np.len. intros Hsize Hpop Ha. unfold np_random_choice, np.len.
  rewrite (proj2 (Z.ltb_ge _ _)), (proj2 (Z.ltb_ge _ _)),
    (proj2 (Z.eqb_neq _ _)) by lia. simpl.
  pose proof (permutation_range (random_state w) (length a)) as Hperm.
  destruct (permutation (random_state w) (length a)) as [perm g].
  simpl in Hperm.
  assert (length perm = length a) as Hlen.
  { rewrite (Permutation_length Hperm). apply length_seq. }
  assert (NoDup perm) as Hnd by (rewrite Hperm; apply NoDup_seq).
  set (idx := take (Z.to_nat size) perm).
  assert (NoDup idx) as Hidx by (eapply sublist_NoDup, sublist_take; done).
  destruct (getitem_in_range a idx) as [sample Hs].
  { apply Forall_forall. intros i Hi.
    apply subseteq_take in Hi. rewrite Hperm in Hi.
    apply elem_of_seq in Hi. lia. }
  exists sample, {| random_state := g; warnings := warnings w |}.
  split; [by rewrite Hs|]. split; [by eapply getitem_NoDup|].
  split; [|split; [|done]].
  - intros x Hx. destruct (getitem_elem_of _ _ _ _ Hs Hx) as (i & _ & Hi).
    by eapply list_elem_of_lookup_2.
  - rewrite (getitem_length _ _ _ Hs). unfold idx.
    rewrite length_take_le; lia.
Qed.

(** A draw of more than the population raises. *)
Lemma np_random_choice_overdraw {A} (a : list A) (size : Z) (w : world) :
  (np.len a < size)%Z → np_random_choice a size w = (Raise ValueError, w).
Proof.
  intros Hsize. unfold np_random_choice.
  rewrite (proj2 (Z.ltb_lt _ _) Hsize). by rewrite orb_true_r.
Qed.

(** ** Running a computation *)

Lemma run_bind_Ok {A B} (m : M A) (f : A → M B) (w w' : world) (a : A) :
  m w = (Ok a, w') → (m ≫= f) w = f a w'.
Proof. intros H. unfold mbind, M_bind. by rewrite H. Qed.

Lemma run_bind_Raise {A B} (m : M A) (f : A → M B) (w w' : world) (e : exn) :
  m w = (Raise e, w') → (m ≫= f) w = (Raise e, w').
Proof. intros H. unfold mbind, M_bind. by rewrite H. Qed.

Lemma run_lift {A} (r : Result A) (w : world) : lift r w = (r, w).
Proof. reflexivity. Qed.

Lemma run_lift_Ok {A} (r : Result A) (a : A) (w : world) :
  r = Ok a → lift r w = (Ok a, w).
Proof. by intros ->. Qed.

Lemma run_lift_Raise {A} (r : Result A) (e : exn) (w : world) :
  r = Raise e → lift r w = (Raise e, w).
Proof. by intros ->. Qed.

Lemma run_ret {A} (a : A) (w : world) : (mret a : M A) w = (Ok a, w).
Proof. reflexivity. Qed.

(** ** Subsampling (lines 112-135) *)

Lemma where_map_elem_of {A} (P : A → bool) (l : list A) (i : nat) :
  i ∈ np.where_ (map P l) ↔ ∃ x, l !! i = Some x ∧ P x = true.
Proof.
  rewrite where_elem_of, lookup_map. destruct (l !! i) as [x|]; simpl.
  - split; [intros [= H]; eauto|]. by intros (y & [= <-] & ->).
  - split; [done|]. by intros (y & ? & _).
Qed.

Lemma fg_inds_elem_of (labels : list Z) (i : nat) :
  i ∈ fg_inds labels ↔ ∃ l, labels !! i = Some l ∧ (1 ≤ l)%Z.
Proof.
  unfold fg_inds. rewrite where_map_elem_of.
  by setoid_rewrite Z.leb_le.
Qed.

Lemma bg_inds_elem_of (labels : list Z) (i : nat) :
  i ∈ bg_inds labels ↔ labels !! i = Some 0%Z.
Proof.
  unfold bg_inds. rewrite where_map_elem_of. setoid_rewrite Z.eqb_eq.
  split; [by intros (l & ? & ->)|]. eauto.
Qed.

Lemma where_map_in_range {A} (P : A → bool) (l : list A) (idx : list nat) :
  (∀ i, i ∈ idx → i ∈ np.where_ (map P l)) →
  Forall (λ i, i < length l)%nat idx.
Proof.
  intros Hsub. apply Forall_forall. intros i Hi.
  apply Hsub, where_bound in Hi. by rewrite length_map in Hi.
Qed.

(** The foreground draw returns.  The labels at the drawn positions, all
    foreground, are negated; every other label stays; and the foreground
    count comes down to [num_fg] when it was above. *)
Lemma subsample_fg_run (self : RCNNTarget) (labels : list Z) (w : world) :
  (0 ≤ num_fg self)%Z →
  ∃ disabled sampled w',
    subsample_fg self labels w = (Ok sampled, w')
    ∧ warnings w' = warnings w
    ∧ NoDup disabled
    ∧ (∀ i, i ∈ disabled → i ∈ fg_inds labels)
    ∧ np.len disabled = Z.max (np.len (fg_inds labels) - num_fg self) 0
    ∧ length sampled = length labels
    ∧ (∀ i, i ∈ disabled → sampled !! i = Z.opp <$> labels !! i)
    ∧ (∀ i, i ∉ disabled → sampled !! i = labels !! i)
    ∧ np.sum (map (λ l, 1 <=? l)%Z sampled)
      = Z.min (np.len (fg_inds labels)) (num_fg self)
    ∧ np.sum (map (λ l, l =? 0)%Z sampled)
      = np.sum (map (λ l, l =? 0)%Z labels).
Proof.
  intros Hnum. unfold subsample_fg.
  destruct (num_fg self <? np.len (fg_inds labels))%Z eqn:Hexcess.
  - apply Z.ltb_lt in Hexcess.
    destruct (np_random_choice_run (fg_inds labels)
                (np.len (fg_inds labels) - num_fg self) w)
      as (disabled & w' & Hrun & Hnd & Hsub & Hlen & Hw);
      [lia|lia|apply where_NoDup|].
    pose proof (where_map_in_range _ _ _ Hsub) as Hrange.
    destruct (getitem_in_range labels disabled Hrange) as [negated Hneg].
    exists disabled, (np.put labels disabled (map Z.opp negated)), w'.
    split.
    { rewrite (run_bind_Ok _ _ _ _ _ Hrun).
      rewrite (run_bind_Ok _ _ _ _ _ (run_lift_Ok _ _ w' Hneg)), run_lift.
      rewrite setitem_in_range; [done|done|].
      by rewrite length_map, (getitem_length _ _ _ Hneg). }
    split; [done|]. split; [done|]. split; [done|].
    split; [lia|]. split; [apply put_length|].
    assert (Forall (λ v, (1 ≤ - v)%Z) (map Z.opp negated)) as Hvals.
    { apply Forall_forall. intros v Hv.
      apply list_elem_of_In, in_map_iff in Hv as (x & <- & Hx).
      apply list_elem_of_In in Hx.
      destruct (getitem_elem_of _ _ _ _ Hneg Hx) as (i & Hi & Hl).
      apply Hsub, fg_inds_elem_of in Hi as (l & Hl' & Hge).
      simplify_eq. lia. }
    split; [|split; [|split]].
    + intros i Hi. apply list_elem_of_lookup in Hi as [k Hk].
      assert (i < length labels)%nat as Hi.
      { rewrite Forall_forall in Hrange.
        by eapply Hrange, list_elem_of_lookup_2. }
      rewrite (put_lookup_in _ _ _ k i Hnd Hi Hk).
      * by rewrite lookup_map, (getitem_lookup _ _ _ _ _ Hneg Hk).
      * rewrite length_map, (getitem_length _ _ _ Hneg).
        by eapply lookup_lt_Some.
    + intros i Hi. by apply put_lookup_notin.
    + rewrite (sum_map_put _ true); [|done| | |].
      * rewrite Hlen. unfold fg_inds in Hexcess |- *.
        rewrite <- sum_where in Hexcess. rewrite <- !sum_where. lia.
      * by rewrite length_map, (getitem_length _ _ _ Hneg).
      * apply Forall_forall. intros i Hi.
        apply Hsub, fg_inds_elem_of in Hi as (l & Hl & Hge).
        exists l. split; [done|]. by apply Z.leb_le.
      * eapply Forall_impl; [exact Hvals|]. simpl.
        intros v Hv. apply Z.leb_gt. lia.
    + rewrite (sum_map_put _ false); [lia|done| | |].
      * by rewrite length_map, (getitem_length _ _ _ Hneg).
      * apply Forall_forall. intros i Hi.
        apply Hsub, fg_inds_elem_of in Hi as (l & Hl & Hge).
        exists l. split; [done|]. apply Z.eqb_neq. lia.
      * eapply Forall_impl; [exact Hvals|]. simpl.
        intros v Hv. apply Z.eqb_neq. lia.
  - apply Z.ltb_ge in Hexcess.
    exists [], labels, w. split; [done|]. split; [done|].
    split; [constructor|]. split; [by intros i Hi%elem_of_nil|].
    split; [unfold np.len at 1; simpl; lia|]. split; [done|].
    split; [by intros i Hi%elem_of_nil|]. split; [done|].
    split; [|done]. unfold fg_inds in Hexcess |- *.
    rewrite <- sum_where in Hexcess. rewrite <- !sum_where. lia.
Qed.

(** The background draw returns when the foreground count is within the
    batch.  The labels at the drawn positions, all background, become
    ignore; every other label stays. *)
Lemma subsample_bg_run (self : RCNNTarget) (labels : list Z) (w : world) :
  (np.sum (map (λ l, 1 <=? l)%Z labels) ≤ _batch_size self)%Z →
  ∃ dropped final w',
    subsample_bg self labels w = (Ok final, w')
    ∧ warnings w' = warnings w
    ∧ NoDup dropped
    ∧ (∀ i, i ∈ dropped → i ∈ bg_inds labels)
    ∧ np.len dropped
      = Z.max (np.len (bg_inds labels) - num_bg self labels) 0
    ∧ length final = length labels
    ∧ (∀ i, i ∈ dropped → final !! i = Some (-1)%Z)
    ∧ (∀ i, i ∉ dropped → final !! i = labels !! i)
    ∧ np.sum (map (λ l, l =? 0)%Z final)
      = Z.min (np.len (bg_inds labels)) (num_bg self labels)
    ∧ np.sum (map (λ l, 1 <=? l)%Z final)
      = np.sum (map (λ l, 1 <=? l)%Z labels).
Proof.
  intros Hfg. unfold subsample_bg.
  assert (0 ≤ num_bg self labels)%Z as Hnum by (unfold num_bg; lia).
  destruct (num_bg self labels <? np.len (bg_inds labels))%Z eqn:Hexcess.
  - apply Z.ltb_lt in Hexcess.
    destruct (np_random_choice_run (bg_inds labels)
                (np.len (bg_inds labels) - num_bg self labels) w)
      as (dropped & w' & Hrun & Hnd & Hsub & Hlen & Hw);
      [lia|lia|apply where_NoDup|].
    pose proof (where_map_in_range _ _ _ Hsub) as Hrange.
    exists dropped,
      (np.put labels dropped (replicate (length dropped) (-1)%Z)), w'.
    split.
    { rewrite (run_bind_Ok _ _ _ _ _ Hrun), run_lift.
      by rewrite setitem_scalar_in_range. }
    split; [done|]. split; [done|]. split; [done|].
    split; [lia|]. split; [apply put_length|].
    assert (Forall (λ v, v = (-1)%Z) (replicate (length dropped) (-1)%Z))
      as Hvals.
    { apply Forall_forall. by intros v [-> _]%elem_of_replicate. }
    split; [|split; [|split]].
    + intros i Hi. apply list_elem_of_lookup in Hi as [k Hk].
      assert (i < length labels)%nat as Hi.
      { rewrite Forall_forall in Hrange.
        by eapply Hrange, list_elem_of_lookup_2. }
      pose proof (lookup_lt_Some _ _ _ Hk) as Hlt.
      rewrite (put_lookup_in _ _ _ k i Hnd Hi Hk).
      * by apply lookup_replicate_2.
      * by rewrite length_replicate.
    + intros i Hi. by apply put_lookup_notin.
    + rewrite (sum_map_put _ true); [|done| | |].
      * rewrite Hlen. unfold bg_inds in Hexcess |- *.
        rewrite <- sum_where in Hexcess. rewrite <- !sum_where. lia.
      * by rewrite length_replicate.
      * apply Forall_forall. intros i Hi.
        apply Hsub, bg_inds_elem_of in Hi. by exists 0%Z.
      * eapply Forall_impl; [exact Hvals|]. by intros v ->.
    + rewrite (sum_map_put _ false); [lia|done| | |].
      * by rewrite length_replicate.
      * apply Forall_forall. intros i Hi.
        apply Hsub, bg_inds_elem_of in Hi. by exists 0%Z.
      * eapply Forall_impl; [exact Hvals|]. by intros v ->.
  - apply Z.ltb_ge in Hexcess.
    exists [], labels, w. split; [done|]. split; [done|].
    split; [constructor|]. split; [by intros i Hi%elem_of_nil|].
    split; [unfold np.len at 1; simpl; lia|]. split; [done|].
    split; [by intros i Hi%elem_of_nil|]. split; [done|].
    split; [|done]. unfold bg_inds in Hexcess |- *.
    rewrite <- sum_where in Hexcess. rewrite <- !sum_where. lia.
Qed.

(** Step 4 as a whole returns for every label array.  [disabled] are the
    foreground positions drawn for negation and [dropped] the background
    positions drawn for ignore; nothing else changes. *)
Lemma subsample_run (self : RCNNTarget) (raw : list Z) (w : world) :
  (0 ≤ num_fg self ≤ _batch_size self)%Z →
  ∃ disabled dropped final w',
    subsample self raw w = (Ok final, w')
    ∧ warnings w'
      = warnings w
        ++ (if (np.len (fg_inds raw) <? num_fg self)%Z
            then [(np.len (fg_inds raw), num_fg self)] else [])
    ∧ length final = length raw
    ∧ NoDup disabled ∧ NoDup dropped
    ∧ (∀ i, i ∈ disabled →
         ∃ l, raw !! i = Some l ∧ (1 ≤ l)%Z ∧ final !! i = Some (- l)%Z)
    ∧ (∀ i, i ∈ dropped → raw !! i = Some 0%Z ∧ final !! i = Some (-1)%Z)
    ∧ (∀ i, i ∉ disabled → i ∉ dropped → final !! i = raw !! i)
    ∧ np.len disabled
      = Z.max (np.sum (map (λ l, 1 <=? l)%Z raw) - num_fg self) 0
    ∧ np.len dropped
      = Z.max (np.sum (map (λ l, l =? 0)%Z raw)
               - (_batch_size self - np.sum (map (λ l, 1 <=? l)%Z final))) 0
    ∧ np.sum (map (λ l, 1 <=? l)%Z final)
      = Z.min (np.sum (map (λ l, 1 <=? l)%Z raw)) (num_fg self)
    ∧ np.sum (map (λ l, l =? 0)%Z final)
      = Z.min (np.sum (map (λ l, l =? 0)%Z raw))
          (_batch_size self - np.sum (map (λ l, 1 <=? l)%Z final)).
Proof.
  intros [Hnum HB].
  destruct (subsample_fg_run self raw w Hnum)
    as (disabled & sampled & w1 & Hfg & Hw1 & Hnd1 & Hsub1 & Hlen1 & Hlens
        & Hin1 & Hout1 & Hcnt1 & Hzero1).
  set (w2 := if (np.len (fg_inds raw) <? num_fg self)%Z
             then {| random_state := random_state w1;
                     warnings := warnings w1
                                 ++ [(np.len (fg_inds raw), num_fg self)] |}
             else w1).
  destruct (subsample_bg_run self sampled w2)
    as (dropped & final & w' & Hbg & Hw' & Hnd2 & Hsub2 & Hlen2 & Hlenf
        & Hin2 & Hout2 & Hzero2 & Hcnt2); [lia|].
  assert (∀ i, i ∈ dropped → (i ∉ disabled) ∧ raw !! i = Some 0%Z) as Hdrop.
  { intros i Hi. apply Hsub2, bg_inds_elem_of in Hi.
    destruct (decide (i ∈ disabled)) as [Hd|Hd].
    - pose proof (Hin1 i Hd) as Hneg.
      apply Hsub1, fg_inds_elem_of in Hd as (l & Hl & Hge).
      rewrite Hl in Hneg. simpl in Hneg. simplify_eq. lia.
    - rewrite <- (Hout1 i Hd). done. }
  exists disabled, dropped, final, w'. split.
  { unfold subsample. rewrite (run_bind_Ok _ _ _ _ _ Hfg).
    rewrite (run_bind_Ok _ _ _ w2 ()); [done|].
    unfold w2. by destruct (_ <? _)%Z. }
  split.
  { rewrite Hw'. unfold w2. destruct (_ <? _)%Z; simpl; rewrite Hw1; [done|].
    by rewrite app_nil_r. }
  split; [lia|]. split; [done|]. split; [done|].
  unfold fg_inds, bg_inds, num_bg in *. rewrite <- !sum_where in *.
  split.
  { intros i Hi. pose proof (Hin1 i Hi) as Hneg.
    destruct (proj1 (where_map_elem_of _ _ _) (Hsub1 i Hi))
      as (l & Hl & Hge).
    apply Z.leb_le in Hge. exists l. split; [done|]. split; [done|].
    rewrite Hout2, Hneg, Hl; [done|].
    intros Hd. by apply Hdrop in Hd as [? _]. }
  split.
  { intros i Hi. split; [by apply Hdrop|]. by apply Hin2. }
  split.
  { intros i Hd1 Hd2. by rewrite Hout2, Hout1. }
  split; [lia|]. split; [lia|]. split; [lia|]. lia.
Qed.

(** ** Unmapping (lines 168-175) *)

Lemma unmap_length {A} (data : list A) (count : nat) (inds : list nat)
    (fill : A) :
  length (unmap data count inds fill) = count.
Proof. unfold unmap. by rewrite put_length, length_replicate. Qed.

Lemma unmap_lookup_in {A} (data : list A) (count : nat) (inds : list nat)
    (fill : A) (k i : nat) :
  NoDup inds → (i < count)%nat → inds !! k = Some i →
  (k < length data)%nat → unmap data count inds fill !! i = data !! k.
Proof.
  intros Hnd Hi Hk Hkd. unfold unmap.
  apply put_lookup_in; [done| |done|done]. by rewrite length_replicate.
Qed.

Lemma unmap_lookup_notin {A} (data : list A) (count : nat) (inds : list nat)
    (fill : A) (i : nat) :
  i ∉ inds → (i < count)%nat → unmap data count inds fill !! i = Some fill.
Proof.
  intros Hi Hlt. unfold unmap. rewrite put_lookup_notin by done.
  by apply lookup_replicate_2.
Qed.

(** ** The kept proposals (lines 59-72) *)

Lemma inds_inside_elem_of (proposals : list Proposal) (i : nat) :
  i ∈ inds_inside proposals
  ↔ ∃ p, proposals !! i = Some p ∧ inside (p_box p) = true.
Proof.
  unfold inds_inside. rewrite where_map_elem_of. split.
  - intros (b & Hb & Hin). rewrite lookup_map in Hb.
    destruct (proposals !! i) as [p|]; [|done]. simpl in Hb.
    exists p. by simplify_eq.
  - intros (p & Hp & Hin). exists (p_box p).
    split; [by apply lookup_map_Some|done].
Qed.

Lemma inds_inside_NoDup (proposals : list Proposal) :
  NoDup (inds_inside proposals).
Proof. apply where_NoDup. Qed.

Lemma inds_inside_sorted (proposals : list Proposal) :
  StronglySorted lt (inds_inside proposals).
Proof. apply where_from_sorted. Qed.

Lemma inds_inside_bound (proposals : list Proposal) (i : nat) :
  i ∈ inds_inside proposals → (i < length proposals)%nat.
Proof.
  intros (p & Hp & _)%inds_inside_elem_of. by eapply lookup_lt_Some.
Qed.

(** Selecting the kept rows never raises. *)
Lemma kept_proposals_run (proposals : list Proposal) :
  ∃ kept,
    np.getitem (map p_box proposals) (inds_inside proposals) = Ok kept
    ∧ length kept = length (inds_inside proposals)
    ∧ ∀ k i, inds_inside proposals !! k = Some i →
        ∃ p, proposals !! i = Some p ∧ inside (p_box p) = true
          ∧ kept !! k = Some (p_box p).
Proof.
  destruct (getitem_in_range (map p_box proposals) (inds_inside proposals))
    as [kept Hkept].
  { apply Forall_forall. intros i Hi.
    rewrite length_map. by apply inds_inside_bound. }
  exists kept. split; [done|]. split; [by eapply getitem_length|].
  intros k i Hk.
  destruct (proj1 (inds_inside_elem_of proposals i)) as (p & Hp & Hin);
    [by eapply list_elem_of_lookup_2|].
  exists p. split; [done|]. split; [done|].
  rewrite (getitem_lookup _ _ _ _ _ Hkept Hk). by apply lookup_map_Some.
Qed.

(** ** Regression targets (lines 145-172) *)

(** With at least one ground-truth box the targets are computed without an
    error.  A kept proposal with a positive label gets the encoding of its
    box against its best ground-truth box; every other row is zero. *)
Lemma bbox_targets_run (all_proposals kept : list Box) (inds : list nat)
    (gt_boxes : list GtBox) (labels : list Z) :
  gt_boxes ≠ [] → length labels = length kept → NoDup inds →
  Forall (λ i, i < length all_proposals)%nat inds →
  ∃ targets,
    bbox_targets all_proposals kept inds (bbox_overlaps kept gt_boxes)
      gt_boxes labels = Ok targets
    ∧ length targets = length all_proposals
    ∧ (∀ i, i ∉ inds → (i < length all_proposals)%nat →
         targets !! i = Some zero_target)
    ∧ (∀ k i l b, inds !! k = Some i → labels !! k = Some l →
         kept !! k = Some b →
         ∃ g, gt_boxes !! best_gt b gt_boxes = Some g
           ∧ targets !! i = Some (if (0 <? l)%Z then encode b (g_box g)
                                  else zero_target)).
Proof.
  intros Hgt Hlen Hnd Hrange. unfold bbox_targets.
  set (pidx := np.where_ (map (λ l, 0 <? l)%Z labels)).
  rewrite (argmax1_overlaps _ _ Hgt).
  assert (Forall (λ k, k < length labels)%nat pidx) as Hpidx.
  { by apply (where_map_in_range (λ l, 0 <? l)%Z). }
  destruct (getitem_in_range (map (λ b, best_gt b gt_boxes) kept) pidx)
    as [ids Hids]; [by rewrite length_map, <- Hlen|].
  destruct (getitem_in_range gt_boxes ids) as [pgb Hpgb].
  { apply Forall_forall. intros id Hid.
    destruct (getitem_elem_of _ _ _ _ Hids Hid) as (k & _ & Hk).
    rewrite lookup_map in Hk. destruct (kept !! k) as [b|]; [|done].
    simpl in Hk. simplify_eq. by apply best_gt_bound. }
  destruct (getitem_in_range kept pidx) as [pwt Hpwt]; [by rewrite <- Hlen|].
  rewrite Hids, Hpgb, Hpwt. eexists. split; [done|].
  split; [apply unmap_length|].
  split; [by intros i Hi Hlt; apply unmap_lookup_notin|].
  intros k i l b Hk Hl Hb.
  destruct (lookup_lt_is_Some_2 gt_boxes (best_gt b gt_boxes)) as [g Hg];
    [by apply best_gt_bound|].
  exists g. split; [done|].
  rewrite (unmap_lookup_in _ _ _ _ k i Hnd); [| |done|].
  2:{ rewrite Forall_forall in Hrange.
      by eapply Hrange, list_elem_of_lookup_2. }
  2:{ rewrite unmap_length. by eapply lookup_lt_Some. }
  pose proof (lookup_lt_Some _ _ _ Hl) as Hkl.
  destruct (0 <? l)%Z eqn:Hpos.
  - assert (k ∈ pidx) as Hin by (apply where_map_elem_of; eauto).
    apply list_elem_of_lookup in Hin as [j Hj].
    pose proof (lookup_lt_Some _ _ _ Hj) as Hjl.
    assert (pwt !! j = Some b) as Hpj.
    { by rewrite (getitem_lookup _ _ _ _ _ Hpwt Hj). }
    assert (ids !! j = Some (best_gt b gt_boxes)) as Hidj.
    { rewrite (getitem_lookup _ _ _ _ _ Hids Hj).
      by apply (lookup_map_Some (λ b, best_gt b gt_boxes)). }
    assert (pgb !! j = Some g) as Hgj.
    { by rewrite (getitem_lookup _ _ _ _ _ Hpgb Hidj). }
    rewrite (unmap_lookup_in _ _ _ _ j k); [|apply where_NoDup|done|done|].
    + unfold bbox_transform. by rewrite lookup_zip_with, Hpj, Hgj.
    + unfold bbox_transform. rewrite length_zip_with.
      rewrite (getitem_length _ _ _ Hpwt), (getitem_length _ _ _ Hpgb),
        (getitem_length _ _ _ Hids). lia.
  - apply unmap_lookup_notin; [|done].
    intros (l' & Hl' & Hpos')%where_map_elem_of. congruence.
Qed.

(** ** The whole call *)

(** With at least one ground-truth box the call returns.  A proposal outside
    the image gets ignore and a zero target; a proposal inside the image
    gets some label, and the encoding against its best ground-truth box as
    target exactly when that label is positive. *)
Lemma proposal_target_layer_run (self : RCNNTarget)
    (proposals : list Proposal) (gt_boxes : list GtBox) (w : world) :
  (0 ≤ num_fg self ≤ _batch_size self)%Z → gt_boxes ≠ [] →
  ∃ labels targets w',
    proposal_target_layer self proposals gt_boxes w
    = (Ok (labels, targets), w')
    ∧ length labels = length proposals
    ∧ length targets = length proposals
    ∧ ∀ i p, proposals !! i = Some p →
        if inside (p_box p)
        then ∃ l g,
               labels !! i = Some l
               ∧ gt_boxes !! best_gt (p_box p) gt_boxes = Some g
               ∧ targets !! i
                 = Some (if (0 <? l)%Z then encode (p_box p) (g_box g)
                         else zero_target)
        else labels !! i = Some (-1)%Z ∧ targets !! i = Some zero_target.
Proof.
  intros Hcfg Hgt. unfold proposal_target_layer.
  set (w0 := {| random_state := seed 0; warnings := warnings w |}).
  rewrite (run_bind_Ok _ _ w w0 ()) by done.
  destruct (kept_proposals_run proposals) as (kept & Hkept & Hklen & Hk).
  rewrite (run_bind_Ok _ _ _ _ _ (run_lift_Ok _ _ w0 Hkept)).
  destruct (label_proposals_run self kept gt_boxes Hgt)
    as (raw & Hraw & Hrlen & _).
  rewrite (run_bind_Ok _ _ _ _ _ (run_lift_Ok _ _ w0 Hraw)).
  destruct (subsample_run self raw w0 Hcfg)
    as (disabled & dropped & final & w' & Hsub & _ & Hflen & _).
  rewrite (run_bind_Ok _ _ _ _ _ Hsub).
  pose proof (inds_inside_NoDup proposals) as Hnd.
  destruct (bbox_targets_run (map p_box proposals) kept
              (inds_inside proposals) gt_boxes final Hgt)
    as (targets & Htargets & Htlen & Hout & Hin); [lia|done| |].
  { apply Forall_forall. intros i Hi.
    rewrite length_map. by apply inds_inside_bound. }
  rewrite (run_bind_Ok _ _ _ _ _ (run_lift_Ok _ _ w' Htargets)), run_ret.
  rewrite length_map in *.
  eexists _, _, _. split; [done|]. split; [apply unmap_length|].
  split; [done|]. intros i p Hp.
  pose proof (lookup_lt_Some _ _ _ Hp) as Hi.
  destruct (inside (p_box p)) eqn:Hinside.
  - assert (i ∈ inds_inside proposals) as Hmem.
    { apply inds_inside_elem_of. eauto. }
    apply list_elem_of_lookup in Hmem as [k Hki].
    destruct (Hk k i Hki) as (p' & Hp' & _ & Hkept_k).
    assert (p' = p) as -> by congruence.
    pose proof (lookup_lt_Some _ _ _ Hkept_k) as Hkl.
    destruct (lookup_lt_is_Some_2 final k) as [l Hl]; [lia|].
    destruct (Hin k i l (p_box p) Hki Hl Hkept_k) as (g & Hg & Ht).
    exists l, g. split; [|done].
    rewrite (unmap_lookup_in _ _ _ _ k i); [done|done|done|done|lia].
  - assert (i ∉ inds_inside proposals) as Hmem.
    { intros (p' & Hp' & Hinside')%inds_inside_elem_of. congruence. }
    split; [by apply unmap_lookup_notin|]. by apply Hout.
Qed.

(** ** Dependence on the random source *)

Lemma rng_only_ret {A} (a : A) : rng_only (mret a).
Proof. by intros w1 w2 H. Qed.

Lemma rng_only_lift {A} (r : Result A) : rng_only (lift r).
Proof. by intros w1 w2 H. Qed.

Lemma rng_only_warning (have want : Z) : rng_only (warning have want).
Proof. by intros w1 w2 H. Qed.

Lemma rng_only_bind {A B} (m : M A) (f : A → M B) :
  rng_only m → (∀ a, rng_only (f a)) → rng_only (m ≫= f).
Proof.
  intros Hm Hf w1 w2 Hw. destruct (Hm w1 w2 Hw) as [Hres Hst].
  unfold mbind, M_bind.
  destruct (m w1) as [r1 w1'], (m w2) as [r2 w2']. simpl in *. subst r2.
  destruct r1 as [a|e]; [by apply Hf|done].
Qed.

Lemma rng_only_choice {A} (a : list A) (size : Z) :
  rng_only (np_random_choice a size).
Proof.
  intros w1 w2 Hw. unfold np_random_choice. rewrite Hw.
  destruct (_ || _); [done|]. by destruct (permutation _ _).
Qed.

Lemma rng_only_subsample (self : RCNNTarget) (labels : list Z) :
  rng_only (subsample self labels).
Proof.
  unfold subsample. apply rng_only_bind.
  - unfold subsample_fg. destruct (_ <? _)%Z; [|apply rng_only_ret].
    apply rng_only_bind; [apply rng_only_choice|]. intros disable_inds.
    apply rng_only_bind; [apply rng_only_lift|]. intros negated.
    apply rng_only_lift.
  - intros sampled. apply rng_only_bind.
    + destruct (_ <? _)%Z; [apply rng_only_warning|apply rng_only_ret].
    + intros _. unfold subsample_bg.
      destruct (_ <? _)%Z; [|apply rng_only_ret].
      apply rng_only_bind; [apply rng_only_choice|]. intros disable_inds.
      apply rng_only_lift.
Qed.

(** ** The configuration set by the constructor *)

Lemma num_fg_init (num_classes : Z) : num_fg (__init__ num_classes) = 16%Z.
Proof. reflexivity. Qed.

Lemma init_batch (num_classes : Z) :
  (0 ≤ num_fg (__init__ num_classes) ≤ _batch_size (__init__ num_classes))%Z.
Proof. rewrite num_fg_init. simpl. lia. Qed.

Lemma is_foreground_init (num_classes : Z) (mo : float) :
  is_foreground (__init__ num_classes) mo = Float.leb (Float.Fin (1 # 2)) mo.
Proof. reflexivity. Qed.

Lemma is_background_init (num_classes : Z) (mo : float) :
  is_background (__init__ num_classes) mo
  = Float.ltb (Float.Fin double_0_1) mo && Float.ltb mo (Float.Fin (1 # 2)).
Proof. reflexivity. Qed.

(** ** The claims *)

(** C1: with at least one ground-truth box and 0-based class identifiers,
    Step 3 labels every kept (inside-image) proposal: background (0) exactly
    when 0.1 < maxOverlap < 0.5, the class of bestGt plus one exactly when
    maxOverlap >= 0.5, and ignore (-1) exactly when neither holds, where
    maxOverlap is the overlap with bestGt; a maximal overlap of exactly 0.5
    gives the foreground label, not background. *)
Theorem C1_raw_label_by_max_overlap (num_classes : Z)
    (proposals : list Box) (gt_boxes : list GtBox) :
  gt_boxes ≠ [] →
  Forall (λ g, 0 ≤ g_class g)%Z gt_boxes →
  ∃ labels,
    label_proposals (__init__ num_classes) proposals
      (bbox_overlaps proposals gt_boxes) gt_boxes = Ok labels
    ∧ length labels = length proposals
    ∧ ∀ p b, proposals !! p = Some b →
        ∃ l g,
          labels !! p = Some l
          ∧ gt_boxes !! best_gt b gt_boxes = Some g
          ∧ overlap_row b gt_boxes !! best_gt b gt_boxes
            = Some (max_overlap b gt_boxes)
          ∧ (l = 0%Z
             ↔ Float.ltb (Float.Fin double_0_1) (max_overlap b gt_boxes)
               = true
               ∧ Float.ltb (max_overlap b gt_boxes) (Float.Fin (1 # 2))
                 = true)
          ∧ (l = (g_class g + 1)%Z
             ↔ Float.geb (max_overlap b gt_boxes) (Float.Fin (1 # 2)) = true)
          ∧ (l = (-1)%Z
             ↔ ¬ (Float.ltb (Float.Fin double_0_1) (max_overlap b gt_boxes)
                  = true
                  ∧ Float.ltb (max_overlap b gt_boxes) (Float.Fin (1 # 2))
                    = true)
               ∧ Float.geb (max_overlap b gt_boxes) (Float.Fin (1 # 2))
                 ≠ true)
          ∧ (∀ q, max_overlap b gt_boxes = Float.Fin q → (q == 1 # 2)%Q →
               l = (g_class g + 1)%Z ∧ l ≠ 0%Z).
Proof.
  intros Hgt Hclass.
  destruct (label_proposals_run (__init__ num_classes) proposals gt_boxes Hgt)
    as (labels & Hrun & Hlen & Hlabel).
  exists labels. split; [done|]. split; [done|]. intros p b Hp.
  destruct (Hlabel p b Hp) as (g & Hg & Hl). eexists _, g.
  split; [exact Hl|]. split; [done|].
  split; [by apply row_argmax_spec, overlap_row_nonempty|].
  assert (0 ≤ g_class g)%Z as Hc.
  { rewrite Forall_forall in Hclass.
    by eapply Hclass, list_elem_of_lookup_2. }
  rewrite is_foreground_init, is_background_init. unfold Float.geb.
  set (mo := max_overlap b gt_boxes).
  destruct (Float.leb (Float.Fin (1 # 2)) mo) eqn:Hfg.
  - assert (Float.ltb mo (Float.Fin (1 # 2)) = false) as Hnbg.
    { destruct (Float.ltb mo (Float.Fin (1 # 2))) eqn:Hlt; [|done].
      apply float_ltb_not_leb in Hlt. congruence. }
    rewrite Hnbg. split; [|split; [|split]].
    + split; [lia|]. by intros [_ ?].
    + done.
    + split; [lia|]. by intros [_ ?].
    + intros _ _ _. split; [done|lia].
  - split; [|split; [|split]].
    + rewrite <- andb_true_iff.
      destruct (_ && _); split; intros; (done || lia).
    + destruct (_ && _); split; intros; (done || lia).
    + rewrite <- andb_true_iff. destruct (_ && _); split.
      * intros; lia.
      * intros [Hn _]. by destruct Hn.
      * intros _. by split.
      * done.
    + intros q Hq Hhalf. rewrite Hq in Hfg. simpl in Hfg.
      assert (Qle_bool (1 # 2) q = true); [|congruence].
      apply Qle_bool_iff. rewrite Hhalf. apply Qle_refl.
Qed.

(** C2: with at least one ground-truth box the call returns, and in the
    returned arrays every proposal whose final label is at most 0 has
    regression target (0,0,0,0), and every proposal whose final label is
    positive has the encoding of its own box against the ground-truth box
    at bestGt, the first argmax of its overlap row. *)
Theorem C2_regression_targets (num_classes : Z) (proposals : list Proposal)
    (gt_boxes : list GtBox) (w : world) :
  gt_boxes ≠ [] →
  ∃ labels targets w',
    proposal_target_layer (__init__ num_classes) proposals gt_boxes w
    = (Ok (labels, targets), w')
    ∧ ∀ i l, labels !! i = Some l →
        ((l ≤ 0)%Z → targets !! i = Some zero_target)
        ∧ ((0 < l)%Z →
           ∃ p g,
             proposals !! i = Some p
             ∧ first_argmax (overlap_row (p_box p) gt_boxes)
                 (best_gt (p_box p) gt_boxes)
             ∧ gt_boxes !! best_gt (p_box p) gt_boxes = Some g
             ∧ targets !! i = Some (encode (p_box p) (g_box g))).
Proof.
  intros Hgt.
  destruct (proposal_target_layer_run (__init__ num_classes) proposals
              gt_boxes w (init_batch num_classes) Hgt)
    as (labels & targets & w' & Hrun & Hllen & Htlen & Hrow).
  exists labels, targets, w'. split; [done|]. intros i l Hl.
  destruct (lookup_lt_is_Some_2 proposals i) as [p Hp].
  { rewrite <- Hllen. by eapply lookup_lt_Some. }
  specialize (Hrow i p Hp). destruct (inside (p_box p)).
  - destruct Hrow as (l' & g & Hl' & Hg & Ht).
    assert (l' = l) as -> by congruence. split.
    + intros Hle. rewrite Ht.
      by rewrite (proj2 (Z.ltb_ge 0 l) Hle).
    + intros Hpos. exists p, g. split; [done|]. split.
      { by apply row_argmax_spec, overlap_row_nonempty. }
      split; [done|]. rewrite Ht.
      by rewrite (proj2 (Z.ltb_lt 0 l) Hpos).
  - destruct Hrow as [Hl' Ht]. split; [done|].
    intros Hpos. assert (l = (-1)%Z) by congruence. lia.
Qed.

(** X11: for an input of N proposals and at least one ground-truth box,
    however many proposals are filtered out or subsampled, the call returns
    N labels and N regression targets (each a 4-tuple). *)
Theorem output_lengths_with_ground_truth (num_classes : Z)
    (proposals : list Proposal)
    (gt_boxes : list GtBox) (w : world) :
  gt_boxes ≠ [] →
  ∃ (labels : list Z) (targets : list (float * float * float * float)) w',
    proposal_target_layer (__init__ num_classes) proposals gt_boxes w
    = (Ok (labels, targets), w')
    ∧ length labels = length proposals
    ∧ length targets = length proposals.
Proof.
  intros Hgt.
  destruct (proposal_target_layer_run (__init__ num_classes) proposals
              gt_boxes w (init_batch num_classes) Hgt)
    as (labels & targets & w' & Hrun & Hllen & Htlen & _).
  by exists labels, targets, w'.
Qed.

(** Without ground-truth boxes the reduction of line 93 raises, for any
    instance and any proposals. *)
Lemma proposal_target_layer_no_gt (self : RCNNTarget)
    (proposals : list Proposal) (w : world) :
  (proposal_target_layer self proposals [] w).1 = Raise ValueError.
Proof.
  unfold proposal_target_layer.
  set (w0 := {| random_state := seed 0; warnings := warnings w |}).
  rewrite (run_bind_Ok _ _ w w0 ()) by done.
  destruct (kept_proposals_run proposals) as (kept & Hkept & _).
  rewrite (run_bind_Ok _ _ _ _ _ (run_lift_Ok _ _ w0 Hkept)).
  by rewrite (run_bind_Raise _ _ w0 w0 ValueError).
Qed.

(** C3 (the code fails it): for an input of N proposals and no ground-truth
    box the call does not return N labels and N regression targets: it
    raises [ValueError] and returns nothing.  (With at least one
    ground-truth box it does return them.) *)
Theorem C3_no_output_without_ground_truth (num_classes : Z)
    (proposals : list Proposal) (w : world) :
  (proposal_target_layer (__init__ num_classes) proposals [] w).1
  = Raise ValueError
  ∧ has_output_lengths (length proposals)
      (proposal_target_layer (__init__ num_classes) proposals [] w).1
    = false.
Proof.
  pose proof (proposal_target_layer_no_gt (__init__ num_classes) proposals w)
    as Hraise.
  split; [done|]. by rewrite Hraise.
Qed.

(** C4 (the code fails it): without ground-truth boxes the call does not
    return all-ignore labels; the reduction over the empty axis raises
    [ValueError], whatever the proposals. *)
Theorem C4_no_ground_truth_raises (num_classes : Z)
    (proposals : list Proposal) (w : world) :
  (proposal_target_layer (__init__ num_classes) proposals [] w).1
  = Raise ValueError.
Proof.
  unfold proposal_target_layer.
  set (w0 := {| random_state := seed 0; warnings := warnings w |}).
  rewrite (run_bind_Ok _ _ w w0 ()) by done.
  destruct (kept_proposals_run proposals) as (kept & Hkept & _).
  rewrite (run_bind_Ok _ _ _ _ _ (run_lift_Ok _ _ w0 Hkept)).
  by rewrite (run_bind_Raise _ _ w0 w0 ValueError).
Qed.

(** C5: after the subsampling of Step 4, for every label array, at most
    floor(foregroundFraction * batchSize) labels are at least 1, and the
    labels equal to 0 and the labels at least 1 together are at most
    batchSize. *)
Theorem C5_batch_size_bounds (num_classes : Z) (raw : list Z) (w : world) :
  ∃ final w',
    subsample (__init__ num_classes) raw w = (Ok final, w')
    ∧ (np.sum (map (λ l, 1 <=? l)%Z final)
       ≤ Qfloor (_foreground_fraction (__init__ num_classes)
                 * inject_Z (_batch_size (__init__ num_classes))))%Z
    ∧ (np.sum (map (λ l, l =? 0)%Z final)
       + np.sum (map (λ l, 1 <=? l)%Z final)
       ≤ _batch_size (__init__ num_classes))%Z.
Proof.
  destruct (subsample_run (__init__ num_classes) raw w
              (init_batch num_classes))
    as (disabled & dropped & final & w' & Hrun & _ & _ & _ & _ & _ & _ & _
        & _ & _ & Hfg & Hbg).
  exists final, w'. split; [done|].
  rewrite num_fg_init in Hfg.
  change (Qfloor _) with 16%Z. split; lia.
Qed.

(** C6 (amended): after Step 4 the surviving foreground labels (at least 1)
    number min(foreground candidates, numForegroundWanted) and the surviving
    background labels (equal to 0) number min(background candidates,
    batchSize minus the surviving foreground count): the background count
    reaches batchSize minus the foreground count only when there are enough
    candidates.  Survivors keep their raw label, and every other proposal
    is ignore (-1) or a disabled positive carrying its negated raw label. *)
Theorem C6_active_training_set (num_classes : Z) (raw : list Z) (w : world) :
  Forall (λ l, -1 ≤ l)%Z raw →
  ∃ final w',
    subsample (__init__ num_classes) raw w = (Ok final, w')
    ∧ length final = length raw
    ∧ np.sum (map (λ l, 1 <=? l)%Z final)
      = Z.min (np.sum (map (λ l, 1 <=? l)%Z raw))
          (num_fg (__init__ num_classes))
    ∧ np.sum (map (λ l, l =? 0)%Z final)
      = Z.min (np.sum (map (λ l, l =? 0)%Z raw))
          (_batch_size (__init__ num_classes)
           - np.sum (map (λ l, 1 <=? l)%Z final))
    ∧ ∀ i l, final !! i = Some l →
        ((1 ≤ l)%Z → raw !! i = Some l)
        ∧ (l = 0%Z → raw !! i = Some 0%Z)
        ∧ ((l < 0)%Z →
           l = (-1)%Z ∨ ∃ r, raw !! i = Some r ∧ (1 ≤ r)%Z ∧ l = (- r)%Z).
Proof.
  intros Hraw.
  destruct (subsample_run (__init__ num_classes) raw w
              (init_batch num_classes))
    as (disabled & dropped & final & w' & Hrun & _ & Hlen & _ & _ & Hdis
        & Hdrop & Hkeep & _ & _ & Hfg & Hbg).
  exists final, w'. split; [done|]. split; [done|].
  split; [done|]. split; [done|]. intros i l Hl.
  destruct (decide (i ∈ disabled)) as [Hd|Hd].
  { destruct (Hdis i Hd) as (r & Hr & Hge & Hf).
    assert (l = (- r)%Z) as -> by congruence.
    split; [lia|]. split; [lia|]. intros _. right. by exists r. }
  destruct (decide (i ∈ dropped)) as [Hd'|Hd'].
  { destruct (Hdrop i Hd') as [Hr Hf].
    assert (l = (-1)%Z) as -> by congruence.
    split; [lia|]. split; [lia|]. intros _. by left. }
  rewrite (Hkeep i Hd Hd') in Hl.
  split; [done|]. split; [by intros ->|]. intros Hneg. left.
  rewrite Forall_forall in Hraw.
  pose proof (Hraw l (list_elem_of_lookup_2 _ _ _ Hl)). lia.
Qed.

(** C7: two calls on the same proposals and ground-truth boxes return the
    same labels and regression targets, whatever the state of the random
    source and the log before each call: the call installs the state of
    seed 0 before its first draw. *)
Theorem C7_deterministic (self : RCNNTarget) (proposals : list Proposal)
    (gt_boxes : list GtBox) (w1 w2 : world) :
  (proposal_target_layer self proposals gt_boxes w1).1
  = (proposal_target_layer self proposals gt_boxes w2).1
  ∧ random_state (proposal_target_layer self proposals gt_boxes w1).2
    = random_state (proposal_target_layer self proposals gt_boxes w2).2.
Proof.
  unfold proposal_target_layer.
  set (rest := λ _ : (), _).
  assert (∀ u, rng_only (rest u)) as Hrest.
  { intros u. unfold rest. apply rng_only_bind; [apply rng_only_lift|].
    intros kept. apply rng_only_bind; [apply rng_only_lift|].
    intros raw. apply rng_only_bind; [apply rng_only_subsample|].
    intros final. apply rng_only_bind; [apply rng_only_lift|].
    intros targets. apply rng_only_ret. }
  rewrite (run_bind_Ok _ rest w1
             {| random_state := seed 0; warnings := warnings w1 |} ())
    by done.
  rewrite (run_bind_Ok _ rest w2
             {| random_state := seed 0; warnings := warnings w2 |} ())
    by done.
  by apply Hrest.
Qed.


(** C9 (amended): the call validates nothing.  With at least one
    ground-truth box, a proposal with a NaN coordinate does not make the
    call fail: it fails the inside-image comparisons, so it is labelled
    ignore (-1) and its regression target is (0,0,0,0). *)
Theorem C9_nan_proposal_is_filtered (num_classes : Z)
    (proposals : list Proposal) (gt_boxes : list GtBox) (w : world)
    (i : nat) (p : Proposal) :
  gt_boxes ≠ [] → proposals !! i = Some p → has_nan (p_box p) = true →
  ∃ labels targets w',
    proposal_target_layer (__init__ num_classes) proposals gt_boxes w
    = (Ok (labels, targets), w')
    ∧ labels !! i = Some (-1)%Z
    ∧ targets !! i = Some zero_target.
Proof.
  intros Hgt Hp Hnan.
  destruct (proposal_target_layer_run (__init__ num_classes) proposals
              gt_boxes w (init_batch num_classes) Hgt)
    as (labels & targets & w' & Hrun & _ & _ & Hrow).
  exists labels, targets, w'. split; [done|].
  specialize (Hrow i p Hp).
  assert (inside (p_box p) = false) as Hout.
  { unfold has_nan in Hnan. unfold inside, Float.geb.
    destruct (p_box p) as [a b c d]. simpl in *.
    destruct a; [done|..]; (destruct b; [by rewrite andb_false_r|..]);
      (destruct c; [by rewrite andb_false_r|..]);
      destruct d; try done; by rewrite andb_false_r. }
  by rewrite Hout in Hrow.
Qed.

(** C10: each of the two draws of Step 4, when it runs, asks for a number
    of indices between 0 and the number of candidates, so the draw returns
    and the over-draw branch of the sampling call is never taken: Step 4
    returns for every label array. *)
Theorem C10_draws_within_candidates (num_classes : Z) (raw : list Z)
    (w : world) :
  ((num_fg (__init__ num_classes) < np.len (fg_inds raw))%Z →
   (0 ≤ np.len (fg_inds raw) - num_fg (__init__ num_classes)
    ≤ np.len (fg_inds raw))%Z
   ∧ ∃ sample w1,
       np_random_choice (fg_inds raw)
         (np.len (fg_inds raw) - num_fg (__init__ num_classes))%Z w
       = (Ok sample, w1))
  ∧ (∃ sampled w1,
       subsample_fg (__init__ num_classes) raw w = (Ok sampled, w1)
       ∧ ∀ w2,
           (num_bg (__init__ num_classes) sampled
            < np.len (bg_inds sampled))%Z →
           (0 ≤ np.len (bg_inds sampled)
                - num_bg (__init__ num_classes) sampled
            ≤ np.len (bg_inds sampled))%Z
           ∧ ∃ sample w3,
               np_random_choice (bg_inds sampled)
                 (np.len (bg_inds sampled)
                  - num_bg (__init__ num_classes) sampled)%Z w2
               = (Ok sample, w3))
  ∧ ∃ final w', subsample (__init__ num_classes) raw w = (Ok final, w').
Proof.
  pose proof (init_batch num_classes) as Hcfg. split; [|split].
  - intros Hexcess. split; [lia|].
    destruct (np_random_choice_run (fg_inds raw)
                (np.len (fg_inds raw) - num_fg (__init__ num_classes)) w)
      as (sample & w1 & Hrun & _); [lia|lia|apply where_NoDup|].
    by exists sample, w1.
  - destruct (subsample_fg_run (__init__ num_classes) raw w)
      as (disabled & sampled & w1 & Hrun & _ & _ & _ & _ & _ & _ & _ & Hfg
          & _); [lia|].
    exists sampled, w1. split; [done|]. intros w2 Hexcess.
    assert (0 ≤ num_bg (__init__ num_classes) sampled)%Z as Hbg.
    { unfold num_bg. lia. }
    split; [lia|].
    destruct (np_random_choice_run (bg_inds sampled)
                (np.len (bg_inds sampled)
                 - num_bg (__init__ num_classes) sampled) w2)
      as (sample & w3 & Hrun' & _); [lia|lia|apply where_NoDup|].
    by exists sample, w3.
  - destruct (subsample_run (__init__ num_classes) raw w Hcfg)
      as (disabled & dropped & final & w' & Hrun & _).
    by exists final, w'.
Qed.

(** ** Further facts about the numpy operations *)

Lemma sum_map_replicate {A} (P : A → bool) (n : nat) (x : A) :
  P x = false → np.sum (map P (replicate n x)) = 0%Z.
Proof. intros HP. induction n as [|n IH]; simpl; [done|]. rewrite HP. lia. Qed.

(** Writing over distinct positions that all fail [P] adds the count of [P]
    among the entries written. *)
Lemma sum_map_put_fresh {A} (P : A → bool) (a : list A) (idx : list nat)
    (vals : list A) :
  NoDup idx → length vals = length idx →
  Forall (λ i, ∃ x, a !! i = Some x ∧ P x = false) idx →
  np.sum (map P (np.put a idx vals))
  = (np.sum (map P a) + np.sum (map P vals))%Z.
Proof.
  revert a vals.
  induction idx as [|i idx IH]; intros a vals Hnd Hlen Hidx.
  - destruct vals; [simpl; lia|done].
  - destruct vals as [|v vals]; [done|]. simpl in Hlen.
    apply NoDup_cons in Hnd as [Hni Hnd].
    apply Forall_cons in Hidx as [(x & Hx & HPx) Hidx].
    cbn [np.put]. rewrite IH; [|done|lia|].
    + rewrite (sum_map_insert P a i x v Hx), HPx. simpl. lia.
    + apply Forall_forall. intros j Hj.
      rewrite Forall_forall in Hidx.
      destruct (Hidx j Hj) as (y & Hy & HPy). exists y. split; [|done].
      rewrite list_lookup_insert_ne; [done|]. intros ->. done.
Qed.

(** Unmapping with a fill that fails [P] keeps the count of [P]. *)
Lemma sum_map_unmap {A} (P : A → bool) (data : list A) (count : nat)
    (inds : list nat) (fill : A) :
  P fill = false → NoDup inds → length data = length inds →
  Forall (λ i, i < count)%nat inds →
  np.sum (map P (unmap data count inds fill)) = np.sum (map P data).
Proof.
  intros HP Hnd Hlen Hrange. unfold unmap.
  rewrite sum_map_put_fresh; [|done|done|].
  - rewrite sum_map_replicate by done. lia.
  - eapply Forall_impl; [exact Hrange|]. simpl. intros i Hi.
    exists fill. split; [by apply lookup_replicate_2|done].
Qed.

(** Reading an unmapped array back at its indices returns the data. *)
Lemma getitem_unmap {A} (data : list A) (count : nat) (inds : list nat)
    (fill : A) :
  NoDup inds → length data = length inds →
  Forall (λ i, i < count)%nat inds →
  np.getitem (unmap data count inds fill) inds = Ok data.
Proof.
  intros Hnd Hlen Hrange. apply getitem_Ok.
  apply Forall2_same_length_lookup_2; [done|].
  intros k i x Hi Hx.
  rewrite (unmap_lookup_in _ _ _ _ k i Hnd); [done| |done|].
  - rewrite Forall_forall in Hrange.
    by eapply Hrange, list_elem_of_lookup_2.
  - by eapply lookup_lt_Some.
Qed.

Lemma maximum_nan_r (a : float) : np.maximum a Float.NaN = Float.NaN.
Proof. by destruct a. Qed.

Lemma fold_maximum_has_nan (row : list float) (acc : float) :
  Float.NaN ∈ row → fold_left np.maximum row acc = Float.NaN.
Proof.
  revert acc. induction row as [|x row IH]; intros acc Hin.
  - by apply elem_of_nil in Hin.
  - apply elem_of_cons in Hin as [<-|Hin]; simpl.
    + by rewrite maximum_nan_r, fold_maximum_nan.
    + by apply IH.
Qed.

(** A NaN anywhere in a row is the row's maximum. *)
Lemma row_max_has_nan (row : list float) :
  Float.NaN ∈ row → np.row_max row = Float.NaN.
Proof.
  destruct row as [|x row]; [by intros ?%elem_of_nil|].
  intros [<-|Hin]%elem_of_cons; simpl.
  - apply fold_maximum_nan.
  - by apply fold_maximum_has_nan.
Qed.

(** ** The phases of the call, row by row *)

(** The call is its phases in sequence.  For the kept proposal at position
    [k], of original index [i]: Step 3 gives the raw label [r]; Step 4
    keeps it, negates it (a foreground label in excess) or replaces it by
    ignore (a background label in excess); the result is the returned label
    at [i], and the returned target at [i] is the encoding against the best
    ground-truth box when that label is positive, zero otherwise. *)
Lemma proposal_target_layer_rows (self : RCNNTarget)
    (proposals : list Proposal) (gt_boxes : list GtBox) (w : world) :
  (0 ≤ num_fg self ≤ _batch_size self)%Z → gt_boxes ≠ [] →
  ∃ kept raw final targets w',
    np.getitem (map p_box proposals) (inds_inside proposals) = Ok kept
    ∧ label_proposals self kept (bbox_overlaps kept gt_boxes) gt_boxes
      = Ok raw
    ∧ subsample self raw
        {| random_state := seed 0; warnings := warnings w |}
      = (Ok final, w')
    ∧ length final = length (inds_inside proposals)
    ∧ length targets = length proposals
    ∧ proposal_target_layer self proposals gt_boxes w
      = (Ok (unmap final (length proposals) (inds_inside proposals) (-1)%Z,
             targets), w')
    ∧ (∀ i, (i < length proposals)%nat → i ∉ inds_inside proposals →
         targets !! i = Some zero_target)
    ∧ ∀ k i p, inds_inside proposals !! k = Some i →
        proposals !! i = Some p →
        ∃ g r l,
          gt_boxes !! best_gt (p_box p) gt_boxes = Some g
          ∧ raw !! k = Some r
          ∧ r = (if is_foreground self (max_overlap (p_box p) gt_boxes)
                 then (g_class g + 1)%Z
                 else if is_background self (max_overlap (p_box p) gt_boxes)
                      then 0%Z else (-1)%Z)
          ∧ final !! k = Some l
          ∧ (l = r ∨ ((1 ≤ r)%Z ∧ l = (- r)%Z) ∨ (r = 0%Z ∧ l = (-1)%Z))
          ∧ unmap final (length proposals) (inds_inside proposals) (-1)%Z
              !! i = Some l
          ∧ targets !! i
            = Some (if (0 <? l)%Z then encode (p_box p) (g_box g)
                    else zero_target).
Proof.
  intros Hcfg Hgt.
  set (w0 := {| random_state := seed 0; warnings := warnings w |}).
  destruct (kept_proposals_run proposals) as (kept & Hkept & Hklen & Hk).
  destruct (label_proposals_run self kept gt_boxes Hgt)
    as (raw & Hraw & Hrlen & Hlabel).
  destruct (subsample_run self raw w0 Hcfg)
    as (disabled & dropped & final & w' & Hsub & _ & Hflen & _ & _ & Hdis
        & Hdrop & Hkeep & _).
  pose proof (inds_inside_NoDup proposals) as Hnd.
  destruct (bbox_targets_run (map p_box proposals) kept
              (inds_inside proposals) gt_boxes final Hgt)
    as (targets & Htargets & Htlen & Hout & Hin); [lia|done| |].
  { apply Forall_forall. intros i Hi.
    rewrite length_map. by apply inds_inside_bound. }
  rewrite length_map in *.
  exists kept, raw, final, targets, w'.
  split; [done|]. split; [done|]. split; [done|]. split; [lia|].
  split; [done|]. split.
  { unfold proposal_target_layer.
    rewrite (run_bind_Ok _ _ w w0 ()) by done.
    rewrite (run_bind_Ok _ _ _ _ _ (run_lift_Ok _ _ w0 Hkept)).
    rewrite (run_bind_Ok _ _ _ _ _ (run_lift_Ok _ _ w0 Hraw)).
    rewrite (run_bind_Ok _ _ _ _ _ Hsub).
    rewrite (run_bind_Ok _ _ _ _ _ (run_lift_Ok _ _ w' Htargets)), run_ret.
    by rewrite length_map. }
  split; [by intros i Hi Hni; apply Hout|].
  intros k i p Hki Hp.
  pose proof (lookup_lt_Some _ _ _ Hp) as Hi.
  destruct (Hk k i Hki) as (p' & Hp' & _ & Hkept_k).
  assert (p' = p) as -> by congruence.
  destruct (Hlabel k (p_box p) Hkept_k) as (g & Hg & Hr).
  pose proof (lookup_lt_Some _ _ _ Hkept_k) as Hkl.
  destruct (lookup_lt_is_Some_2 final k) as [l Hl]; [lia|].
  destruct (Hin k i l (p_box p) Hki Hl Hkept_k) as (g' & Hg' & Ht).
  assert (g' = g) as -> by congruence.
  eexists g, _, l. split; [done|]. split; [exact Hr|]. split; [done|].
  split; [done|]. split; [|split; [|done]].
  - destruct (decide (k ∈ disabled)) as [Hd|Hd].
    { destruct (Hdis k Hd) as (r & Hr' & Hge & Hf).
      right. left. rewrite Hr in Hr'. injection Hr' as ->.
      split; [done|]. congruence. }
    destruct (decide (k ∈ dropped)) as [Hd'|Hd'].
    { destruct (Hdrop k Hd') as [Hr' Hf].
      right. right. rewrite Hr in Hr'. injection Hr' as Hr'.
      split; [done|]. congruence. }
    left. rewrite (Hkeep k Hd Hd'), Hr in Hl. by injection Hl.
  - rewrite (unmap_lookup_in _ _ _ _ k i); [done|done|done|done|lia].
Qed.

(** No draw is made when neither kind of label is in excess: the labels come
    back as they are and the random source is left alone. *)
Lemma subsample_within_quota (self : RCNNTarget) (labels : list Z)
    (w : world) :
  (np.len (fg_inds labels) ≤ num_fg self)%Z →
  (np.len (bg_inds labels) ≤ num_bg self labels)%Z →
  ∃ w', subsample self labels w = (Ok labels, w')
        ∧ random_state w' = random_state w.
Proof.
  intros Hfg Hbg. unfold subsample, subsample_fg, subsample_bg.
  rewrite (proj2 (Z.ltb_ge _ _) Hfg).
  rewrite (run_bind_Ok _ _ w w labels) by done.
  destruct (np.len (fg_inds labels) <? num_fg self)%Z.
  - erewrite run_bind_Ok by reflexivity.
    rewrite (proj2 (Z.ltb_ge _ _) Hbg). by eexists.
  - erewrite run_bind_Ok by reflexivity.
    rewrite (proj2 (Z.ltb_ge _ _) Hbg). by eexists.
Qed.

(** ** Further properties of the code *)

(** X1: with 0-based class identifiers, a returned label other than -1
    tells what the proposal is.  A label of at least 1 belongs to a proposal
    inside the image whose maximal overlap is at least 0.5, and is the class
    of its best ground-truth box plus one; a label 0 belongs to a proposal
    inside the image with 0.1 < maximal overlap < 0.5; a label below -1 is
    the negated foreground label of such a proposal, disabled in Step 4. *)
Theorem returned_label_sound (num_classes : Z) (proposals : list Proposal)
    (gt_boxes : list GtBox) (w : world) :
  gt_boxes ≠ [] →
  Forall (λ g, 0 ≤ g_class g)%Z gt_boxes →
  ∃ labels targets w',
    proposal_target_layer (__init__ num_classes) proposals gt_boxes w
    = (Ok (labels, targets), w')
    ∧ ∀ i l, labels !! i = Some l → l ≠ (-1)%Z →
        ∃ p g,
          proposals !! i = Some p
          ∧ inside (p_box p) = true
          ∧ gt_boxes !! best_gt (p_box p) gt_boxes = Some g
          ∧ (((1 ≤ l)%Z
              ∧ Float.geb (max_overlap (p_box p) gt_boxes)
                  (Float.Fin (1 # 2)) = true
              ∧ l = (g_class g + 1)%Z)
             ∨ (l = 0%Z
                ∧ Float.ltb (Float.Fin double_0_1)
                    (max_overlap (p_box p) gt_boxes) = true
                ∧ Float.ltb (max_overlap (p_box p) gt_boxes)
                    (Float.Fin (1 # 2)) = true)
             ∨ ((l < -1)%Z
                ∧ Float.geb (max_overlap (p_box p) gt_boxes)
                    (Float.Fin (1 # 2)) = true
                ∧ l = (- (g_class g + 1))%Z)).
Proof.
  intros Hgt Hclass.
  destruct (proposal_target_layer_rows (__init__ num_classes) proposals
              gt_boxes w (init_batch num_classes) Hgt)
    as (kept & raw & final & targets & w' & _ & _ & _ & Hflen & _ & Hrun
        & _ & Hrow).
  eexists _, targets, w'. split; [exact Hrun|]. intros i l Hl Hne.
  pose proof (lookup_lt_Some _ _ _ Hl) as Hi. rewrite unmap_length in Hi.
  destruct (lookup_lt_is_Some_2 proposals i Hi) as [p Hp].
  destruct (decide (i ∈ inds_inside proposals)) as [Hin|Hout].
  2:{ rewrite unmap_lookup_notin in Hl by done. congruence. }
  pose proof (proj1 (inds_inside_elem_of proposals i) Hin)
    as (p' & Hp' & Hinside).
  assert (p' = p) as -> by congruence.
  apply list_elem_of_lookup in Hin as [k Hk].
  destruct (Hrow k i p Hk Hp) as (g & r & l' & Hg & _ & Hr & _ & Hcase & Hl'
                                  & _).
  assert (l' = l) as -> by congruence.
  assert (0 ≤ g_class g)%Z as Hc.
  { rewrite Forall_forall in Hclass.
    by eapply Hclass, list_elem_of_lookup_2. }
  exists p, g. split; [done|]. split; [done|]. split; [done|].
  rewrite is_foreground_init, is_background_init in Hr. unfold Float.geb.
  destruct (Float.leb (Float.Fin (1 # 2)) (max_overlap (p_box p) gt_boxes)).
  - subst r. destruct Hcase as [->|[[Hge ->]|[Hz ->]]].
    + left. split; [lia|]. by split.
    + right. right. split; [lia|]. by split.
    + done.
  - destruct (Float.ltb (Float.Fin double_0_1) _ && Float.ltb _ _) eqn:Hbg;
      subst r.
    + apply andb_true_iff in Hbg as [Hlo Hhi].
      destruct Hcase as [->|[[Hge ->]|[Hz ->]]]; [|lia|done].
      right. left. by split.
    + destruct Hcase as [->|[[Hge ->]|[Hz ->]]]; [done|lia|lia].
Qed.

(** X2: when every class identifier lies in [0, num_classes), every
    returned label lies between -num_classes and num_classes. *)
Theorem returned_label_range (num_classes : Z) (proposals : list Proposal)
    (gt_boxes : list GtBox) (w : world) :
  gt_boxes ≠ [] →
  Forall (λ g, 0 ≤ g_class g < _num_classes (__init__ num_classes))%Z
    gt_boxes →
  ∃ labels targets w',
    proposal_target_layer (__init__ num_classes) proposals gt_boxes w
    = (Ok (labels, targets), w')
    ∧ Forall (λ l, - num_classes ≤ l ≤ num_classes)%Z labels.
Proof.
  intros Hgt Hclass.
  destruct (proposal_target_layer_rows (__init__ num_classes) proposals
              gt_boxes w (init_batch num_classes) Hgt)
    as (kept & raw & final & targets & w' & _ & _ & _ & Hflen & _ & Hrun
        & _ & Hrow).
  eexists _, targets, w'. split; [exact Hrun|].
  assert (1 ≤ num_classes)%Z as Hnc.
  { destruct gt_boxes as [|g0 gt]; [done|].
    apply Forall_cons in Hclass as [Hg0 _]. simpl in Hg0. lia. }
  apply Forall_forall. intros l Hl.
  apply list_elem_of_lookup in Hl as [i Hl].
  pose proof (lookup_lt_Some _ _ _ Hl) as Hi. rewrite unmap_length in Hi.
  destruct (lookup_lt_is_Some_2 proposals i Hi) as [p Hp].
  destruct (decide (i ∈ inds_inside proposals)) as [Hin|Hout].
  2:{ rewrite unmap_lookup_notin in Hl by done.
      injection Hl as <-. lia. }
  apply list_elem_of_lookup in Hin as [k Hk].
  destruct (Hrow k i p Hk Hp) as (g & r & l' & Hg & _ & Hr & _ & Hcase & Hl'
                                  & _).
  assert (l' = l) as -> by congruence.
  assert (0 ≤ g_class g < num_classes)%Z as Hc.
  { rewrite Forall_forall in Hclass.
    by eapply (Hclass g), list_elem_of_lookup_2. }
  assert (-1 ≤ r ≤ num_classes)%Z as Hrr.
  { rewrite Hr. destruct (is_foreground _ _); [lia|].
    destruct (is_background _ _); lia. }
  destruct Hcase as [->|[[Hge ->]|[Hz ->]]]; lia.
Qed.

(** X3: the batch bounds hold in the returned label array too: at most 16
    returned labels are at least 1, and the returned labels equal to 0 or at
    least 1 are at most 64 together. *)
Theorem returned_batch_bounds (num_classes : Z) (proposals : list Proposal)
    (gt_boxes : list GtBox) (w : world) :
  gt_boxes ≠ [] →
  ∃ labels targets w',
    proposal_target_layer (__init__ num_classes) proposals gt_boxes w
    = (Ok (labels, targets), w')
    ∧ (np.sum (map (λ l, 1 <=? l)%Z labels) ≤ 16)%Z
    ∧ (np.sum (map (λ l, l =? 0)%Z labels)
       + np.sum (map (λ l, 1 <=? l)%Z labels) ≤ 64)%Z.
Proof.
  intros Hgt.
  destruct (proposal_target_layer_rows (__init__ num_classes) proposals
              gt_boxes w (init_batch num_classes) Hgt)
    as (kept & raw & final & targets & w' & _ & _ & Hsub & Hflen & _ & Hrun
        & _).
  eexists _, targets, w'. split; [exact Hrun|].
  destruct (subsample_run (__init__ num_classes) raw
              {| random_state := seed 0; warnings := warnings w |}
              (init_batch num_classes))
    as (disabled & dropped & final' & w'' & Hsub' & _ & _ & _ & _ & _ & _
        & _ & _ & _ & Hfg & Hbg).
  assert (final' = final) as -> by congruence.
  rewrite num_fg_init in Hfg. simpl in Hbg.
  assert (Forall (λ i, i < length proposals)%nat (inds_inside proposals))
    as Hrange.
  { apply Forall_forall. intros i Hi. by apply inds_inside_bound. }
  rewrite !sum_map_unmap;
    [lia|done|apply inds_inside_NoDup|done|done
    |done|apply inds_inside_NoDup|done|done].
Qed.

(** X4: Step 4 logs one warning, carrying the number of foreground
    candidates and the 16 wanted, when there are fewer than 16 foreground
    candidates, and logs nothing otherwise (16 candidates or more); earlier
    log entries stay. *)
Theorem subsample_warning (num_classes : Z) (raw : list Z) (w : world) :
  ∃ final w',
    subsample (__init__ num_classes) raw w = (Ok final, w')
    ∧ ((np.len (fg_inds raw) < 16)%Z →
       warnings w' = warnings w ++ [(np.len (fg_inds raw), 16%Z)])
    ∧ ((16 ≤ np.len (fg_inds raw))%Z → warnings w' = warnings w).
Proof.
  destruct (subsample_run (__init__ num_classes) raw w
              (init_batch num_classes))
    as (disabled & dropped & final & w' & Hrun & Hlog & _).
  exists final, w'. split; [done|]. rewrite num_fg_init in Hlog.
  split; intros Hn.
  - by rewrite Hlog, (proj2 (Z.ltb_lt _ _) Hn).
  - by rewrite Hlog, (proj2 (Z.ltb_ge _ _) Hn), app_nil_r.
Qed.

(** X5: a proposal inside the image whose overlap row holds a NaN is never
    used for training: its returned label is ignore (-1) and its returned
    regression target is (0,0,0,0). *)
Theorem nan_overlap_is_ignored (num_classes : Z) (proposals : list Proposal)
    (gt_boxes : list GtBox) (w : world) (i : nat) (p : Proposal) :
  gt_boxes ≠ [] → proposals !! i = Some p → inside (p_box p) = true →
  Float.NaN ∈ overlap_row (p_box p) gt_boxes →
  ∃ labels targets w',
    proposal_target_layer (__init__ num_classes) proposals gt_boxes w
    = (Ok (labels, targets), w')
    ∧ labels !! i = Some (-1)%Z
    ∧ targets !! i = Some zero_target.
Proof.
  intros Hgt Hp Hinside Hnan.
  destruct (proposal_target_layer_rows (__init__ num_classes) proposals
              gt_boxes w (init_batch num_classes) Hgt)
    as (kept & raw & final & targets & w' & _ & _ & _ & _ & _ & Hrun & _
        & Hrow).
  eexists _, targets, w'. split; [exact Hrun|].
  assert (i ∈ inds_inside proposals) as Hin.
  { apply inds_inside_elem_of. eauto. }
  apply list_elem_of_lookup in Hin as [k Hk].
  destruct (Hrow k i p Hk Hp) as (g & r & l & _ & _ & Hr & _ & Hcase & Hl
                                  & Ht).
  unfold max_overlap in Hr. rewrite (row_max_has_nan _ Hnan) in Hr.
  simpl in Hr. subst r.
  assert (l = (-1)%Z) as -> by (destruct Hcase as [?|[[??]|[??]]]; lia).
  by split.
Qed.

(** X6: when at most 16 labels are at least 1 and the labels equal to 0 are
    at most 64 minus their number, Step 4 returns the labels unchanged and
    makes no draw: the random source is left as it was. *)
Theorem subsample_no_excess (num_classes : Z) (labels : list Z) (w : world) :
  (np.sum (map (λ l, 1 <=? l)%Z labels) ≤ 16)%Z →
  (np.sum (map (λ l, l =? 0)%Z labels)
   ≤ 64 - np.sum (map (λ l, 1 <=? l)%Z labels))%Z →
  ∃ w', subsample (__init__ num_classes) labels w = (Ok labels, w')
        ∧ random_state w' = random_state w.
Proof.
  intros Hfg Hbg. apply subsample_within_quota.
  - unfold fg_inds. by rewrite <- sum_where, num_fg_init.
  - unfold bg_inds, num_bg. by rewrite <- sum_where.
Qed.

(** X7: Step 4 is idempotent: run again on its own result, from any state
    of the random source, it returns that result unchanged and makes no
    draw. *)
Theorem subsample_idempotent (num_classes : Z) (raw final : list Z)
    (w w1 w2 : world) :
  subsample (__init__ num_classes) raw w = (Ok final, w1) →
  ∃ w3, subsample (__init__ num_classes) final w2 = (Ok final, w3)
        ∧ random_state w3 = random_state w2.
Proof.
  intros Hrun.
  destruct (subsample_run (__init__ num_classes) raw w
              (init_batch num_classes))
    as (disabled & dropped & final' & w' & Hrun' & _ & _ & _ & _ & _ & _
        & _ & _ & _ & Hfg & Hbg).
  assert (final' = final) as -> by congruence.
  apply subsample_within_quota.
  - unfold fg_inds. rewrite <- sum_where. lia.
  - unfold bg_inds, num_bg. rewrite <- sum_where. lia.
Qed.

(** X8: the call is its phases composed, and unmapping loses nothing: the
    returned labels, read back at the positions of the proposals inside the
    image, are exactly the labels Step 4 leaves for the kept proposals,
    computed from the Step 3 labels under the state of seed 0. *)
Theorem returned_labels_at_inside (num_classes : Z)
    (proposals : list Proposal) (gt_boxes : list GtBox) (w : world) :
  gt_boxes ≠ [] →
  ∃ kept raw final labels targets w',
    np.getitem (map p_box proposals) (inds_inside proposals) = Ok kept
    ∧ label_proposals (__init__ num_classes) kept
        (bbox_overlaps kept gt_boxes) gt_boxes = Ok raw
    ∧ subsample (__init__ num_classes) raw
        {| random_state := seed 0; warnings := warnings w |}
      = (Ok final, w')
    ∧ proposal_target_layer (__init__ num_classes) proposals gt_boxes w
      = (Ok (labels, targets), w')
    ∧ np.getitem labels (inds_inside proposals) = Ok final.
Proof.
  intros Hgt.
  destruct (proposal_target_layer_rows (__init__ num_classes) proposals
              gt_boxes w (init_batch num_classes) Hgt)
    as (kept & raw & final & targets & w' & Hkept & Hraw & Hsub & Hflen & _
        & Hrun & _).
  eexists kept, raw, final, _, targets, w'.
  split; [done|]. split; [done|]. split; [done|]. split; [exact Hrun|].
  apply getitem_unmap; [apply inds_inside_NoDup|done|].
  apply Forall_forall. intros i Hi. by apply inds_inside_bound.
Qed.

(** X9: the foreground assignment of line 105 runs after the background
    assignment of line 96, so for any thresholds a kept proposal under both
    masks gets the foreground label. *)
Theorem foreground_overrides_background (self : RCNNTarget)
    (proposals : list Box) (gt_boxes : list GtBox) (p : nat) (b : Box) :
  gt_boxes ≠ [] → proposals !! p = Some b →
  is_background self (max_overlap b gt_boxes) = true →
  is_foreground self (max_overlap b gt_boxes) = true →
  ∃ labels g,
    label_proposals self proposals (bbox_overlaps proposals gt_boxes)
      gt_boxes = Ok labels
    ∧ gt_boxes !! best_gt b gt_boxes = Some g
    ∧ labels !! p = Some (g_class g + 1)%Z.
Proof.
  intros Hgt Hp Hbg Hfg.
  destruct (label_proposals_run self proposals gt_boxes Hgt)
    as (labels & Hrun & _ & Hlabel).
  destruct (Hlabel p b Hp) as (g & Hg & Hl).
  exists labels, g. split; [done|]. split; [done|]. by rewrite Hfg in Hl.
Qed.

(** X10: the positions kept by the filter of lines 64-69 come out strictly
    increasing, hence without repetition, and below the number of
    proposals: they are valid indices for the unmapping of lines 171-175. *)
Theorem inds_inside_increasing (proposals : list Proposal) :
  StronglySorted lt (inds_inside proposals)
  ∧ NoDup (inds_inside proposals)
  ∧ Forall (λ i, i < length proposals)%nat (inds_inside proposals)
  ∧ (length (inds_inside proposals) ≤ length proposals)%nat.
Proof.
  split; [apply where_from_sorted|]. split; [apply where_NoDup|]. split.
  - apply Forall_forall. intros i Hi. by apply inds_inside_bound.
  - unfold inds_inside.
    pose proof (sum_where (map inside (map p_box proposals))) as Hsum.
    pose proof (sum_le_length (map inside (map p_box proposals))) as Hle.
    unfold np.len in *. rewrite !length_map in Hle. lia.
Qed.

End RCNNTarget.

(** ** The claims on the sample inputs *)

Lemma sample_permutation_range (g : Sample.rng) (n : nat) :
  Permutation (Sample.permutation g n).1 (seq 0 n).
Proof. simpl. symmetry. apply Permutation_rev. Qed.

Abbreviation sample_call :=
  (proposal_target_layer Sample.rng Sample.seed Sample.permutation
     Sample.im_shape Sample.iou Sample.encode (__init__ 20)).

Abbreviation sample_subsample :=
  (subsample Sample.rng Sample.permutation (__init__ 20)).

Abbreviation sample_world := (mk_world Sample.rng 7%nat []).

(** The scenario of one object of class 3: overlaps 9/10 and 1/2 give its
    label 4, overlap 3/10 gives background, and the box leaving the image is
    ignored; only the two positives have a target. *)
Example sample_call_result :
  (sample_call Sample.proposals Sample.gt_boxes sample_world).1
  = Ok ([4; 0; 4; -1]%Z,
        [(Float.Fin 0, Float.Fin 0, Float.Fin 0, Float.Fin 1);
         zero_target;
         (Float.Fin 0, Float.Fin 0, Float.Fin 0, Float.Fin 5);
         zero_target]).
Proof. vm_compute. reflexivity. Qed.

(** Twenty foreground and seventy background candidates: sixteen and
    forty-eight survive. *)
Example sample_subsample_result :
  (sample_subsample Sample.crowded_labels sample_world).1
  = Ok (replicate 16 4 ++ replicate 4 (-4) ++ replicate 48 0
        ++ replicate 22 (-1))%Z.
Proof. vm_compute. reflexivity. Qed.

Lemma C1_raw_label_by_max_overlap_witness :
  Sample.gt_boxes ≠ []
  ∧ Forall (λ g, 0 ≤ g_class g)%Z Sample.gt_boxes
  ∧ ∃ labels,
      label_proposals (__init__ 20) (map p_box Sample.proposals)
        (bbox_overlaps Sample.iou (map p_box Sample.proposals)
           Sample.gt_boxes) Sample.gt_boxes = Ok labels
      ∧ length labels = length (map p_box Sample.proposals).
Proof.
  split; [done|]. split; [by repeat constructor|].
  destruct (C1_raw_label_by_max_overlap Sample.iou 20
              (map p_box Sample.proposals) Sample.gt_boxes)
    as (labels & Hrun & Hlen & _); [done|by repeat constructor|].
  by exists labels.
Defined.

Lemma C2_regression_targets_witness :
  Sample.gt_boxes ≠ []
  ∧ ∃ labels targets w',
      sample_call Sample.proposals Sample.gt_boxes sample_world
      = (Ok (labels, targets), w')
      ∧ ∀ i l, labels !! i = Some l →
          ((l ≤ 0)%Z → targets !! i = Some zero_target)
          ∧ ((0 < l)%Z →
             ∃ p g,
               Sample.proposals !! i = Some p
               ∧ first_argmax (overlap_row Sample.iou (p_box p) Sample.gt_boxes)
                   (best_gt Sample.iou (p_box p) Sample.gt_boxes)
               ∧ Sample.gt_boxes !! best_gt Sample.iou (p_box p) Sample.gt_boxes
                 = Some g
               ∧ targets !! i = Some (Sample.encode (p_box p) (g_box g))).
Proof.
  split; [done|].
  apply (C2_regression_targets Sample.rng Sample.seed Sample.permutation
           sample_permutation_range); done.
Defined.

Lemma output_lengths_with_ground_truth_witness :
  Sample.gt_boxes ≠ []
  ∧ ∃ (labels : list Z) (targets : list (float * float * float * float)) w',
      sample_call Sample.proposals Sample.gt_boxes sample_world
      = (Ok (labels, targets), w')
      ∧ length labels = length Sample.proposals
      ∧ length targets = length Sample.proposals.
Proof.
  split; [done|].
  apply (output_lengths_with_ground_truth Sample.rng Sample.seed
           Sample.permutation sample_permutation_range); done.
Defined.

(** Three proposals inside the image and no ground-truth box: the call
    raises. *)
Example sample_no_ground_truth :
  inds_inside Sample.im_shape (take 3 Sample.proposals) = [0; 1; 2]
  ∧ (sample_call (take 3 Sample.proposals) [] sample_world).1
    = Raise ValueError.
Proof. vm_compute. by split. Qed.

Lemma C5_batch_size_bounds_witness :
  (∀ g n, Permutation (Sample.permutation g n).1 (seq 0 n))
  ∧ ∃ final w',
      sample_subsample Sample.crowded_labels sample_world = (Ok final, w')
      ∧ (np.sum (map (λ l, 1 <=? l)%Z final)
         ≤ Qfloor (_foreground_fraction (__init__ 20)
                   * inject_Z (_batch_size (__init__ 20))))%Z
      ∧ (np.sum (map (λ l, l =? 0)%Z final)
         + np.sum (map (λ l, 1 <=? l)%Z final)
         ≤ _batch_size (__init__ 20))%Z.
Proof.
  split; [exact sample_permutation_range|].
  apply (C5_batch_size_bounds Sample.rng Sample.permutation
           sample_permutation_range).
Defined.

(** C6 as stated fails on a single background candidate: it survives, so
    one label is 0, while batchSize minus the foreground count is 64. *)
Lemma C6_counterexample :
  (sample_subsample [0%Z] sample_world).1 = Ok [0%Z]
  ∧ np.sum (map (λ l, l =? 0)%Z [0%Z])
    ≠ (_batch_size (__init__ 20) - np.sum (map (λ l, 1 <=? l)%Z [0%Z]))%Z.
Proof. vm_compute. by split. Qed.

Lemma C6_active_training_set_witness :
  Forall (λ l, -1 ≤ l)%Z [4; 0; -1]%Z
  ∧ ∃ final w',
      sample_subsample [4; 0; -1]%Z sample_world = (Ok final, w')
      ∧ length final = length [4; 0; -1]%Z
      ∧ np.sum (map (λ l, 1 <=? l)%Z final)
        = Z.min (np.sum (map (λ l, 1 <=? l)%Z [4; 0; -1]%Z))
            (num_fg (__init__ 20))
      ∧ np.sum (map (λ l, l =? 0)%Z final)
        = Z.min (np.sum (map (λ l, l =? 0)%Z [4; 0; -1]%Z))
            (_batch_size (__init__ 20)
             - np.sum (map (λ l, 1 <=? l)%Z final))
      ∧ ∀ i l, final !! i = Some l →
          ((1 ≤ l)%Z → [4; 0; -1]%Z !! i = Some l)
          ∧ (l = 0%Z → [4; 0; -1]%Z !! i = Some 0%Z)
          ∧ ((l < 0)%Z →
             l = (-1)%Z
             ∨ ∃ r, [4; 0; -1]%Z !! i = Some r ∧ (1 ≤ r)%Z ∧ l = (- r)%Z).
Proof.
  split; [by repeat constructor|].
  apply (C6_active_training_set Sample.rng Sample.permutation
           sample_permutation_range).
  by repeat constructor.
Defined.


(** C9 as stated fails on a proposal with a NaN coordinate: the input is
    not rejected, the call returns. *)
Lemma C9_counterexample :
  non_finite_input Sample.nan_proposals Sample.gt_boxes = true
  ∧ (sample_call Sample.nan_proposals Sample.gt_boxes sample_world).1
    = Ok ([-1; 4]%Z,
          [zero_target;
           (Float.Fin 0, Float.Fin 0, Float.Fin 0, Float.Fin 1)]).
Proof. vm_compute. by split. Qed.

Lemma C9_nan_proposal_is_filtered_witness :
  Sample.gt_boxes ≠ []
  ∧ Sample.nan_proposals !! 0%nat
    = Some (mk_Proposal (Float.of_Z 0)
              (mk_Box Float.NaN (Float.of_Z 0) (Float.of_Z 3) (Float.of_Z 3)))
  ∧ has_nan (mk_Box Float.NaN (Float.of_Z 0) (Float.of_Z 3) (Float.of_Z 3))
    = true
  ∧ ∃ labels targets w',
      sample_call Sample.nan_proposals Sample.gt_boxes sample_world
      = (Ok (labels, targets), w')
      ∧ labels !! 0%nat = Some (-1)%Z
      ∧ targets !! 0%nat = Some zero_target.
Proof.
  split; [done|]. split; [done|]. split; [done|].
  apply (C9_nan_proposal_is_filtered Sample.rng Sample.seed
           Sample.permutation sample_permutation_range Sample.im_shape
           Sample.iou Sample.encode 20 Sample.nan_proposals Sample.gt_boxes
           sample_world 0%nat
           (mk_Proposal (Float.of_Z 0)
              (mk_Box Float.NaN (Float.of_Z 0) (Float.of_Z 3)
                 (Float.of_Z 3)))); done.
Defined.

Lemma C10_draws_within_candidates_witness :
  (∀ g n, Permutation (Sample.permutation g n).1 (seq 0 n))
  ∧ ∃ final w',
      sample_subsample Sample.crowded_labels sample_world = (Ok final, w').
Proof.
  split; [exact sample_permutation_range|].
  apply (C10_draws_within_candidates Sample.rng Sample.permutation
           sample_permutation_range 20 Sample.crowded_labels sample_world).
Defined.

(** ** The further properties on the sample inputs *)

Lemma returned_label_sound_witness :
  Sample.gt_boxes ≠ []
  ∧ Forall (λ g, 0 ≤ g_class g)%Z Sample.gt_boxes
  ∧ ∃ labels targets w',
      sample_call Sample.proposals Sample.gt_boxes sample_world
      = (Ok (labels, targets), w')
      ∧ ∀ l, labels !! 0%nat = Some l → l ≠ (-1)%Z →
          ∃ p g, Sample.proposals !! 0%nat = Some p
                 ∧ Sample.gt_boxes
                     !! best_gt Sample.iou (p_box p) Sample.gt_boxes
                   = Some g.
Proof.
  split; [done|]. split; [by repeat constructor|].
  destruct (returned_label_sound Sample.rng Sample.seed Sample.permutation
              sample_permutation_range Sample.im_shape Sample.iou
              Sample.encode 20 Sample.proposals Sample.gt_boxes sample_world)
    as (labels & targets & w' & Hrun & Hsound);
    [done|by repeat constructor|].
  exists labels, targets, w'. split; [done|]. intros l Hl Hne.
  destruct (Hsound 0%nat l Hl Hne) as (p & g & Hp & _ & Hg & _).
  by exists p, g.
Defined.

Lemma returned_label_range_witness :
  Sample.gt_boxes ≠ []
  ∧ Forall (λ g, 0 ≤ g_class g < _num_classes (__init__ 20))%Z
      Sample.gt_boxes
  ∧ ∃ labels targets w',
      sample_call Sample.proposals Sample.gt_boxes sample_world
      = (Ok (labels, targets), w')
      ∧ Forall (λ l, - 20 ≤ l ≤ 20)%Z labels.
Proof.
  split; [done|]. split; [by repeat constructor|].
  apply (returned_label_range Sample.rng Sample.seed Sample.permutation
           sample_permutation_range); [done|by repeat constructor].
Defined.

Lemma returned_batch_bounds_witness :
  Sample.gt_boxes ≠ []
  ∧ ∃ labels targets w',
      sample_call Sample.proposals Sample.gt_boxes sample_world
      = (Ok (labels, targets), w')
      ∧ (np.sum (map (λ l, 1 <=? l)%Z labels) ≤ 16)%Z
      ∧ (np.sum (map (λ l, l =? 0)%Z labels)
         + np.sum (map (λ l, 1 <=? l)%Z labels) ≤ 64)%Z.
Proof.
  split; [done|].
  apply (returned_batch_bounds Sample.rng Sample.seed Sample.permutation
           sample_permutation_range); done.
Defined.

Lemma subsample_warning_witness :
  (∀ g n, Permutation (Sample.permutation g n).1 (seq 0 n))
  ∧ ∃ final w',
      sample_subsample SampleMore.small_labels sample_world = (Ok final, w')
      ∧ ((np.len (fg_inds SampleMore.small_labels) < 16)%Z →
         warnings Sample.rng w'
         = warnings Sample.rng sample_world
           ++ [(np.len (fg_inds SampleMore.small_labels), 16%Z)])
      ∧ ((16 ≤ np.len (fg_inds SampleMore.small_labels))%Z →
         warnings Sample.rng w' = warnings Sample.rng sample_world).
Proof.
  split; [exact sample_permutation_range|].
  apply (subsample_warning Sample.rng Sample.permutation
           sample_permutation_range).
Defined.

(** Two foreground candidates: the warning reads (2, 16). *)
Example sample_warning_logged :
  (sample_subsample SampleMore.small_labels sample_world).2
  = mk_world Sample.rng 7%nat [(2, 16)%Z].
Proof. vm_compute. reflexivity. Qed.

Lemma nan_overlap_is_ignored_witness :
  SampleMore.nan_gt_boxes ≠ []
  ∧ Sample.proposals !! 0%nat = Some (Sample.proposal 0 0 9 8)
  ∧ inside Sample.im_shape (p_box (Sample.proposal 0 0 9 8)) = true
  ∧ Float.NaN ∈ overlap_row Sample.iou (p_box (Sample.proposal 0 0 9 8))
                  SampleMore.nan_gt_boxes
  ∧ ∃ labels targets w',
      sample_call Sample.proposals SampleMore.nan_gt_boxes sample_world
      = (Ok (labels, targets), w')
      ∧ labels !! 0%nat = Some (-1)%Z
      ∧ targets !! 0%nat = Some zero_target.
Proof.
  assert (Float.NaN ∈ overlap_row Sample.iou
                        (p_box (Sample.proposal 0 0 9 8))
                        SampleMore.nan_gt_boxes) as Hnan.
  { vm_compute. left. }
  split; [done|]. split; [done|]. split; [done|]. split; [exact Hnan|].
  apply (nan_overlap_is_ignored Sample.rng Sample.seed Sample.permutation
           sample_permutation_range Sample.im_shape Sample.iou Sample.encode
           20 Sample.proposals SampleMore.nan_gt_boxes sample_world 0%nat
           (Sample.proposal 0 0 9 8)); done.
Defined.

Lemma subsample_no_excess_witness :
  (np.sum (map (λ l, 1 <=? l)%Z SampleMore.small_labels) ≤ 16)%Z
  ∧ (np.sum (map (λ l, l =? 0)%Z SampleMore.small_labels)
     ≤ 64 - np.sum (map (λ l, 1 <=? l)%Z SampleMore.small_labels))%Z
  ∧ ∃ w', sample_subsample SampleMore.small_labels sample_world
          = (Ok SampleMore.small_labels, w')
          ∧ random_state Sample.rng w' = random_state Sample.rng sample_world.
Proof.
  split; [done|]. split; [done|].
  apply (subsample_no_excess Sample.rng Sample.permutation 20
           SampleMore.small_labels sample_world); done.
Defined.

Lemma subsample_idempotent_witness :
  sample_subsample Sample.crowded_labels sample_world
  = (Ok (replicate 16 4 ++ replicate 4 (-4) ++ replicate 48 0
         ++ replicate 22 (-1))%Z,
     mk_world Sample.rng 9%nat [])
  ∧ ∃ w3,
      sample_subsample
        (replicate 16 4 ++ replicate 4 (-4) ++ replicate 48 0
         ++ replicate 22 (-1))%Z sample_world
      = (Ok (replicate 16 4 ++ replicate 4 (-4) ++ replicate 48 0
             ++ replicate 22 (-1))%Z, w3)
      ∧ random_state Sample.rng w3 = random_state Sample.rng sample_world.
Proof.
  assert (sample_subsample Sample.crowded_labels sample_world
          = (Ok (replicate 16 4 ++ replicate 4 (-4) ++ replicate 48 0
                 ++ replicate 22 (-1))%Z,
             mk_world Sample.rng 9%nat [])) as Hrun.
  { vm_compute. reflexivity. }
  split; [exact Hrun|].
  exact (subsample_idempotent Sample.rng Sample.permutation
           sample_permutation_range 20 Sample.crowded_labels _
           sample_world _ sample_world Hrun).
Defined.

Lemma returned_labels_at_inside_witness :
  Sample.gt_boxes ≠ []
  ∧ ∃ labels targets w' final,
      sample_call Sample.proposals Sample.gt_boxes sample_world
      = (Ok (labels, targets), w')
      ∧ np.getitem labels (inds_inside Sample.im_shape Sample.proposals)
        = Ok final.
Proof.
  split; [done|].
  destruct (returned_labels_at_inside Sample.rng Sample.seed
              Sample.permutation sample_permutation_range Sample.im_shape
              Sample.iou Sample.encode 20 Sample.proposals Sample.gt_boxes
              sample_world)
    as (kept & raw & final & labels & targets & w' & _ & _ & _ & Hrun
        & Hback); [done|].
  by exists labels, targets, w', final.
Defined.

Lemma foreground_overrides_background_witness :
  Sample.gt_boxes ≠ []
  ∧ map p_box Sample.proposals !! 2%nat = Some (Sample.box 0 0 9 4)
  ∧ is_background SampleMore.loose
      (max_overlap Sample.iou (Sample.box 0 0 9 4) Sample.gt_boxes) = true
  ∧ is_foreground SampleMore.loose
      (max_overlap Sample.iou (Sample.box 0 0 9 4) Sample.gt_boxes) = true
  ∧ ∃ labels g,
      label_proposals SampleMore.loose (map p_box Sample.proposals)
        (bbox_overlaps Sample.iou (map p_box Sample.proposals)
           Sample.gt_boxes) Sample.gt_boxes = Ok labels
      ∧ Sample.gt_boxes
          !! best_gt Sample.iou (Sample.box 0 0 9 4) Sample.gt_boxes
        = Some g
      ∧ labels !! 2%nat = Some (g_class g + 1)%Z.
Proof.
  split; [done|]. split; [done|]. split; [done|]. split; [done|].
  apply (foreground_overrides_background Sample.iou SampleMore.loose
           (map p_box Sample.proposals) Sample.gt_boxes 2%nat
           (Sample.box 0 0 9 4)); done.
Defined.
